(** * IPO scraper (screener_recentIPOs.py): a shallow embedding

    The development follows the class [IPOScraper] method by method and
    keeps the names of the source.

    - A Python [str] is a sequence of Unicode code points,
      [pystr := list N]; [strip], [replace], [split] and [in] are
      written out on it.
    - The set of processed identifiers is a [gset pystr]; [list(s)] is
      [elements s] and [set(l)] is [list_to_set l].
    - A raised exception is a value of [exn].  A method that touches the
      network, the clock, the log or the files is a function from
      [world] to an outcome and a new [world]; the world reached is kept
      when an exception propagates.
    - The instance [self] is a record of optional attributes: an
      attribute not assigned yet is [None], and reading it raises
      [AttributeError].
    - A parsed page is represented by the answers to the queries the
      scraper makes on it ([find], [find_all], [.text], [['href']]), so
      [BeautifulSoup(response.text, 'html.parser')] is the identity.

    What is taken for granted about the libraries: [requests.get]
    followed by [raise_for_status] returns a response or raises a
    [RequestException]; a file that is written can be read back
    ([json.load] after [json.dump], [pd.read_excel] after [to_excel]
    return what was written, and the spreadsheet has the seven columns
    of the records); writing a file does not fail.  The builtin [int] is
    a parameter of the functions that use it, and [int_ascii] is its
    behaviour on ASCII text. *)

From Stdlib Require Import ZArith QArith.
From stdpp Require Import gmap strings list fin_maps pretty.

Local Open Scope Z_scope.

(** ** Python strings *)

Definition pystr := list N.

(** A literal made of ASCII characters only. *)
Definition lit (s : string) : pystr :=
  map Ascii.N_of_ascii (String.list_ascii_of_string s).

Definition RUPEE : N := 8377%N.        (* U+20B9 INDIAN RUPEE SIGN *)
Definition DOWN_ARROW : N := 8675%N.   (* U+21E3 DOWNWARDS DASHED ARROW *)
Definition UP_ARROW : N := 8673%N.     (* U+21E1 UPWARDS DASHED ARROW *)

(** [str.isspace] on one code point. *)
Definition isspace (c : N) : bool :=
  ((9 <=? c) && (c <=? 13) || (28 <=? c) && (c <=? 32)
   || (c =? 133) || (c =? 160) || (c =? 5760)
   || (8192 <=? c) && (c <=? 8202)
   || (c =? 8232) || (c =? 8233) || (c =? 8239) || (c =? 8287)
   || (c =? 12288))%N.

Fixpoint lstrip (s : pystr) : pystr :=
  match s with
  | c :: s' => if isspace c then lstrip s' else s
  | [] => []
  end.

(** [s.strip()] *)
Definition strip (s : pystr) : pystr := rev (lstrip (rev (lstrip s))).

(** [s.startswith(p)] *)
Fixpoint startswith (p s : pystr) : bool :=
  match p, s with
  | [], _ => true
  | a :: p', b :: s' => (a =? b)%N && startswith p' s'
  | _ :: _, [] => false
  end.

(** [sub in s] *)
Fixpoint contains (sub s : pystr) : bool :=
  startswith sub s || match s with [] => false | _ :: s' => contains sub s' end.

(** [s.replace(old, new)] for a non-empty [old]: the occurrences are
    found from the left and do not overlap.  [skip] counts the code
    points of a match that are still to be passed over. *)
Fixpoint replace_from (old new : pystr) (skip : nat) (s : pystr) : pystr :=
  match s with
  | [] => []
  | c :: s' =>
      match skip with
      | S k => replace_from old new k s'
      | O => if startswith old s
             then new ++ replace_from old new (Nat.pred (length old)) s'
             else c :: replace_from old new 0 s'
      end
  end.

Definition replace (old new s : pystr) : pystr := replace_from old new 0 s.

(** [s.split(sep)] for a non-empty [sep]; [cur] holds the current piece
    reversed. *)
Fixpoint split_from (sep : pystr) (skip : nat) (cur : pystr) (s : pystr)
  : list pystr :=
  match s with
  | [] => [rev cur]
  | c :: s' =>
      match skip with
      | S k => split_from sep k cur s'
      | O => if startswith sep s
             then rev cur :: split_from sep (Nat.pred (length sep)) [] s'
             else split_from sep 0 (c :: cur) s'
      end
  end.

Definition split (sep s : pystr) : list pystr := split_from sep 0 [] s.

(** ** Exceptions *)

Inductive exn :=
| AttributeError | TypeError | IndexError | KeyError | ValueError
| RequestException.

Inductive result (A : Type) :=
| Ok (a : A)
| Raise (e : exn).
Arguments Ok {A} a.
Arguments Raise {A} e.

Definition rbind {A B} (r : result A) (k : A -> result B) : result B :=
  match r with
  | Ok a => k a
  | Raise e => Raise e
  end.

Declare Scope res_scope.
Delimit Scope res_scope with res.
Notation "x <- r ;; k" := (rbind r (fun x => k))
  (at level 100, r at next level, right associativity) : res_scope.

(** [l[i]] on a Python list *)
Definition index {A} (l : list A) (i : nat) : result A :=
  match l !! i with
  | Some x => Ok x
  | None => Raise IndexError
  end.

(** ** The parsed page, as the scraper queries it *)

(** An [<a>] element: [.text] and the [href] attribute, if any. *)
Record anchor := { a_text : pystr; a_href : option pystr }.

(** A [<td>]: [.text] and the result of [.find('a')]. *)
Record cell := { c_text : pystr; c_find_a : option anchor }.

(** A [<tr>]: the result of [.find_all('td')]. *)
Record row := { find_all_td : list cell }.

(** A [<table class="data-table">]: the result of [.find('tbody')], and
    for it the result of [.find_all('tr')]. *)
Record table := { find_tbody : option (list row) }.

(** A page: [find('div', class_='pagination')] with the anchors that
    [find_all('a')] returns in it, and [find('table', class_='data-table')]. *)
Record soup := {
  find_pagination : option (list anchor);
  find_data_table : option table
}.

(** ** The record built for one row *)

Record ipo_data := {
  Company : pystr;
  Company_Link : pystr;
  Listing_Date : pystr;
  IPO_MCap : pystr;
  IPO_Price : pystr;
  Current_Price : pystr;
  Percent_Change : pystr
}.

(** ** The instance *)

Record IPOScraper := {
  base_url : option pystr;
  headers : option (list (pystr * pystr));
  processed_ipos : option (gset pystr);
  output_file : option string;
  processed_file : option string
}.

(** Reading an attribute of [self]. *)
Definition attr {A} (field : IPOScraper -> option A) (self : IPOScraper) : result A :=
  match field self with
  | Some v => Ok v
  | None => Raise AttributeError
  end.

(** [name_cell['href']] *)
Definition get_href (a : anchor) : result pystr :=
  match a_href a with
  | Some h => Ok h
  | None => Raise KeyError
  end.

(** [_extract_ipo_data]: [Ok None] is [return None]. *)
Definition _extract_ipo_data (self : IPOScraper) (r : row)
  : result (option (pystr * ipo_data)) :=
  let cells := find_all_td r in
  match cells with
  | [] => Ok None
  | c0 :: _ =>
      match c_find_a c0 with
      | None => Ok None
      | Some name_cell =>
          let company_name := strip (a_text name_cell) in
          (company_link <- get_href name_cell ;;
           c1 <- index cells 1 ;;
           let ipo_id := company_name ++ lit "_" ++ strip (c_text c1) in
           base <- attr base_url self ;;
           c1' <- index cells 1 ;;
           c2 <- index cells 2 ;;
           c3 <- index cells 3 ;;
           c4 <- index cells 4 ;;
           c5 <- index cells 5 ;;
           Ok (Some (ipo_id,
             {| Company := company_name;
                Company_Link := base ++ company_link;
                Listing_Date := strip (c_text c1');
                IPO_MCap := strip (c_text c2);
                IPO_Price := strip (replace [RUPEE] [] (c_text c3));
                Current_Price := strip (replace [RUPEE] [] (c_text c4));
                Percent_Change :=
                  replace [UP_ARROW] (lit "+")
                    (replace [DOWN_ARROW] (lit "-") (strip (c_text c5)))
             |})))%res
      end
  end.

(** ** Pagination *)

Section Pagination.

(** The builtin [int] applied to a [str]: [None] stands for
    [ValueError], the only exception it raises on a string. *)
Variable int : pystr -> option Z.

(** One iteration of the loop over [page_links]. *)
Definition pagination_step (max_page : Z) (link : anchor) : result Z :=
  if contains (lit "page=") (default [] (a_href link)) then
    (href <- get_href link ;;
     piece <- index (split (lit "page=") href) 1 ;;
     match int piece with
     | Some page_num => Ok (Z.max max_page page_num)
     | None => Ok max_page
     end)%res
  else Ok max_page.

Fixpoint pagination_loop (page_links : list anchor) (max_page : Z) : result Z :=
  match page_links with
  | [] => Ok max_page
  | link :: rest =>
      (m <- pagination_step max_page link ;; pagination_loop rest m)%res
  end.

(** [_extract_pagination_info] *)
Definition _extract_pagination_info (s : soup) : result Z :=
  match find_pagination s with
  | None => Ok 1
  | Some page_links => pagination_loop page_links 1
  end.

(** The page number that parses from a link's address, if one does:
    the text after the first [page=], read by [int]. *)
Definition page_number (link : anchor) : option Z :=
  match a_href link with
  | Some href =>
      if contains (lit "page=") href
      then split (lit "page=") href !! 1%nat ≫= int
      else None
  | None => None
  end.

End Pagination.

(** [int] on text whose digits are ASCII: surrounding whitespace, an
    optional sign, then decimal digits, which single underscores may
    separate.  The whitespace [int] passes over is that of [isspace]
    except the four separators U+001C to U+001F. *)
Definition int_space (c : N) : bool :=
  isspace c && negb ((28 <=? c) && (c <=? 31))%N.

Fixpoint int_lstrip (s : pystr) : pystr :=
  match s with
  | c :: s' => if int_space c then int_lstrip s' else s
  | [] => []
  end.

Definition int_strip (s : pystr) : pystr := rev (int_lstrip (rev (int_lstrip s))).

Definition digit (c : N) : option Z :=
  if ((48 <=? c) && (c <=? 57))%N then Some (Z.of_N c - 48) else None.

Fixpoint int_digits (acc : Z) (s : pystr) : option Z :=
  match s with
  | [] => Some acc
  | c :: s' =>
      if (c =? 95)%N then
        match s' with
        | d :: s'' =>
            match digit d with
            | Some v => int_digits (10 * acc + v) s''
            | None => None
            end
        | [] => None
        end
      else
        match digit c with
        | Some v => int_digits (10 * acc + v) s'
        | None => None
        end
  end.

Definition int_unsigned (s : pystr) : option Z :=
  match s with
  | d :: s' =>
      match digit d with
      | Some v => int_digits v s'
      | None => None
      end
  | [] => None
  end.

Definition int_ascii (s : pystr) : option Z :=
  match int_strip s with
  | [] => None
  | c :: t =>
      if (c =? 45)%N then Z.opp <$> int_unsigned t
      else if (c =? 43)%N then int_unsigned t
      else int_unsigned (c :: t)
  end.

(** ** The world: remote site, files, log *)

(** What [requests.get] followed by [raise_for_status] gives: a response
    with a success status, represented by its text once parsed, or a
    [requests.RequestException] (connection error, timeout, error
    status). *)
Inductive get_outcome :=
| Response (page : soup)
| RequestFailed.

(** A file holds a JSON array of strings, a spreadsheet with the seven
    columns of [ipo_data], or something that neither reader accepts. *)
Inductive file :=
| Json (ids : list pystr)
| Xlsx (rows : list ipo_data)
| Garbage.

Inductive log_msg :=
| Error_loading (e : exn)
| Error_saving (e : exn)
| Error_fetching (url : pystr)
| Failed_initial_page
| Found_pages (total_pages : Z)
| Already_processed (company : pystr)
| Processed_page (page total_pages : Z)
| Added_new (n : nat)
| No_new_IPOs.

Inductive event :=
| Get (url : pystr)
| Sleep (seconds : Q)
| Write (path : string) (f : file)
| Log (msg : log_msg).

(** [remote n url] is the answer to a GET of [url] issued when [n]
    requests have been made before it; [trace] lists the effects in the
    order they happened. *)
Record world := {
  remote : nat -> pystr -> get_outcome;
  clock : nat;
  fs : gmap string file;
  trace : list event
}.

Definition emit (e : event) (w : world) : world :=
  {| remote := remote w; clock := clock w; fs := fs w; trace := trace w ++ [e] |}.

(** ** Computations with effects and exceptions *)

Definition M (A : Type) : Type := world -> result A * world.

Definition ret {A} (a : A) : M A := fun w => (Ok a, w).

Definition raise {A} (e : exn) : M A := fun w => (Raise e, w).

Definition bind {A B} (m : M A) (k : A -> M B) : M B :=
  fun w =>
    match m w with
    | (Ok a, w') => k a w'
    | (Raise e, w') => (Raise e, w')
    end.

Definition lift {A} (r : result A) : M A := fun w => (r, w).

(** [try: body  except Exception as e: handler e] *)
Definition try_except {A} (body : M A) (handler : exn -> M A) : M A :=
  fun w =>
    match body w with
    | (Ok a, w') => (Ok a, w')
    | (Raise e, w') => handler e w'
    end.

Declare Scope m_scope.
Delimit Scope m_scope with M.
Notation "x <- m ;; k" := (bind m (fun x => k))
  (at level 100, m at next level, right associativity) : m_scope.
Notation "m ;;; k" := (bind m (fun _ => k))
  (at level 100, right associativity) : m_scope.
Local Open Scope m_scope.

Definition log (msg : log_msg) : M unit := fun w => (Ok tt, emit (Log msg) w).

(** [time.sleep] *)
Definition time_sleep (seconds : Q) : M unit := fun w => (Ok tt, emit (Sleep seconds) w).

(** [time.random()]: the module [time] has no attribute [random]. *)
Definition time_random : M Q := raise AttributeError.

(** [requests.get(url, headers=..., timeout=10)] and [raise_for_status()] *)
Definition requests_get (url : pystr) : M soup :=
  fun w =>
    let w' := {| remote := remote w; clock := S (clock w); fs := fs w;
                 trace := trace w ++ [Get url] |} in
    match remote w (clock w) url with
    | Response page => (Ok page, w')
    | RequestFailed => (Raise RequestException, w')
    end.

(** [Path(p).exists()] *)
Definition path_exists (p : string) : M bool :=
  fun w => (Ok (bool_decide (is_Some (fs w !! p))), w).

(** [json.load] of the file at [p] (which exists) *)
Definition json_load (p : string) : M (list pystr) :=
  fun w =>
    match fs w !! p with
    | Some (Json ids) => (Ok ids, w)
    | _ => (Raise ValueError, w)
    end.

(** [pd.read_excel] of the file at [p] (which exists) *)
Definition read_excel (p : string) : M (list ipo_data) :=
  fun w =>
    match fs w !! p with
    | Some (Xlsx rows) => (Ok rows, w)
    | _ => (Raise ValueError, w)
    end.

(** [open(p, 'w')]: the file is created, or emptied if it exists (an
    empty file is read by neither reader). *)
Definition open_w (p : string) : M unit :=
  fun w =>
    (Ok tt, {| remote := remote w; clock := clock w; fs := <[p := Garbage]> (fs w);
               trace := trace w |}).

(** Writing a whole file: [json.dump] into a file opened for writing and
    closing it, or [DataFrame.to_excel]. *)
Definition write_file (p : string) (f : file) : M unit :=
  fun w =>
    (Ok tt, {| remote := remote w; clock := clock w; fs := <[p := f]> (fs w);
               trace := trace w ++ [Write p f] |}).

(** Reading an attribute of [self], as an effectful computation. *)
Definition getattr {A} (field : IPOScraper -> option A) (self : IPOScraper) : M A :=
  match field self with
  | Some v => ret v
  | None => raise AttributeError
  end.

(** [_load_processed_ipos] *)
Definition _load_processed_ipos (self : IPOScraper) : M (gset pystr) :=
  returned <-
    try_except
      (p <- getattr processed_file self ;;
       ex <- path_exists p ;;
       if ex : bool then
         p' <- getattr processed_file self ;;
         ids <- json_load p' ;;
         ret (Some (list_to_set ids : gset pystr))
       else ret None)
      (fun e => log (Error_loading e) ;;; ret None) ;;
  match returned with
  | Some s => ret s
  | None => ret ∅
  end.

(** [_save_processed_ipos] *)
Definition _save_processed_ipos (self : IPOScraper) : M unit :=
  try_except
    (p <- getattr processed_file self ;;
     open_w p ;;;
     s <- getattr processed_ipos self ;;
     write_file p (Json (elements s)))
    (fun e => log (Error_saving e)).

Definition user_agent : pystr :=
  lit "Mozilla/5.0 (Windows NT 10.0; Win64; x64) AppleWebKit/537.36 (KHTML, like Gecko) Chrome/91.0.4472.124 Safari/537.36".

Definition default_base_url : pystr := lit "https://www.screener.in".

(** [__init__]: the attributes are assigned in the order of the source. *)
Definition __init__ (base : pystr) : M IPOScraper :=
  let self := {| base_url := Some base; headers := None; processed_ipos := None;
                 output_file := None; processed_file := None |} in
  let self := {| base_url := base_url self;
                 headers := Some [(lit "User-Agent", user_agent)];
                 processed_ipos := processed_ipos self;
                 output_file := output_file self;
                 processed_file := processed_file self |} in
  loaded <- _load_processed_ipos self ;;
  let self := {| base_url := base_url self; headers := headers self;
                 processed_ipos := Some loaded;
                 output_file := output_file self;
                 processed_file := processed_file self |} in
  let self := {| base_url := base_url self; headers := headers self;
                 processed_ipos := processed_ipos self;
                 output_file := Some "ipo_data.xlsx"%string;
                 processed_file := processed_file self |} in
  let self := {| base_url := base_url self; headers := headers self;
                 processed_ipos := processed_ipos self;
                 output_file := output_file self;
                 processed_file := Some "processed_ipos.json"%string |} in
  ret self.

(** [self] after its set [processed_ipos] has become [seen] (the set is
    updated in place by [add]). *)
Definition set_processed (self : IPOScraper) (seen : gset pystr) : IPOScraper :=
  {| base_url := base_url self; headers := headers self;
     processed_ipos := Some seen;
     output_file := output_file self;
     processed_file := processed_file self |}.

(** ** Fetching *)

(** [try: body  except requests.RequestException as e: handler] *)
Definition try_except_request {A} (body : M A) (handler : M A) : M A :=
  fun w =>
    match body w with
    | (Raise RequestException, w') => handler w'
    | other => other
    end.

Definition max_retries : nat := 3.

(** The body of [for attempt in range(max_retries)] in [_make_request],
    over the attempts still to be made; [Some] is [return response]. *)
Fixpoint request_loop (self : IPOScraper) (url : pystr) (attempts : list nat)
  : M (option soup) :=
  match attempts with
  | [] => ret None
  | attempt :: rest =>
      returned <-
        try_except_request
          (_ <- getattr headers self ;;
           response <- requests_get url ;;
           ret (Some response))
          (log (Error_fetching url) ;;; ret None) ;;
      match returned with
      | Some response => ret (Some response)
      | None =>
          (if (attempt <? max_retries - 1)%nat then
             jitter <- time_random ;;
             let delay := (inject_Z (2 ^ Z.of_nat attempt) + jitter * (1 # 10))%Q in
             time_sleep delay
           else ret tt) ;;;
          request_loop self url rest
      end
  end.

(** [_make_request]: [None] is the value [None] returned after the loop. *)
Definition _make_request (self : IPOScraper) (url : pystr) : M (option soup) :=
  request_loop self url (seq 0 max_retries).

(** ** The run *)

Section Run.

Variable int : pystr -> option Z.

(** [str(page)] for a page number *)
Definition str_of_int (n : Z) : pystr := lit (pretty n).

(** Body of [for row in ...]: the state is [all_ipo_data] and [self]
    (whose [processed_ipos] the loop updates). *)
Definition row_step (st : list ipo_data * IPOScraper) (r : row)
  : M (list ipo_data * IPOScraper) :=
  let '(all_ipo_data, self) := st in
  extracted <- lift (_extract_ipo_data self r) ;;
  match extracted with
  | None => raise TypeError      (* ipo_id, ipo_data = None *)
  | Some (ipo_id, data) =>
      seen <- getattr processed_ipos self ;;
      if bool_decide (ipo_id ∈ seen) then
        log (Already_processed (Company data)) ;;;
        ret (all_ipo_data, self)
      else
        seen' <- getattr processed_ipos self ;;
        ret (all_ipo_data ++ [data], set_processed self ({[ ipo_id ]} ∪ seen'))
  end.

Fixpoint row_loop (rows : list row) (st : list ipo_data * IPOScraper)
  : M (list ipo_data * IPOScraper) :=
  match rows with
  | [] => ret st
  | r :: rest => st' <- row_step st r ;; row_loop rest st'
  end.

(** Body of [for page in range(1, total_pages + 1)]. *)
Definition page_step (url : pystr) (total_pages : Z)
    (st : list ipo_data * IPOScraper) (page : Z)
  : M (list ipo_data * IPOScraper) :=
  let page_url := url ++ lit "?page=" ++ str_of_int page in
  response <- _make_request (snd st) page_url ;;
  match response with
  | None => ret st
  | Some soup =>
      match find_data_table soup with
      | None => ret st
      | Some table =>
          rows <- match find_tbody table with
                  | Some rows => ret rows
                  | None => raise AttributeError
                  end ;;
          st' <- row_loop rows st ;;
          log (Processed_page page total_pages) ;;;
          time_sleep 2 ;;;
          ret st'
      end
  end.

Fixpoint page_loop (url : pystr) (total_pages : Z) (pages : list Z)
    (st : list ipo_data * IPOScraper)
  : M (list ipo_data * IPOScraper) :=
  match pages with
  | [] => ret st
  | page :: rest =>
      st' <- page_step url total_pages st page ;;
      page_loop url total_pages rest st'
  end.

(** [range(1, total_pages + 1)] *)
Definition page_range (total_pages : Z) : list Z :=
  map Z.of_nat (seq 1 (Z.to_nat total_pages)).

(** The last part of [scrape_ipo_data]: [if all_ipo_data: ... else: ...]. *)
Definition save_results (st : list ipo_data * IPOScraper) : M unit :=
  let '(all_ipo_data, self) := st in
  match all_ipo_data with
  | _ :: _ =>
      out <- getattr output_file self ;;
      ex <- path_exists out ;;
      final_df <- (if ex : bool then
                     existing_df <- read_excel out ;;
                     ret (existing_df ++ all_ipo_data)
                   else ret all_ipo_data) ;;
      out' <- getattr output_file self ;;
      write_file out' (Xlsx final_df) ;;;
      _save_processed_ipos self ;;;
      log (Added_new (length all_ipo_data))
  | [] => log No_new_IPOs
  end.

(** The first part of [scrape_ipo_data], up to the end of the loop over
    the pages; [None] is the early [return] after a failed first fetch. *)
Definition collect (self : IPOScraper) : M (option (list ipo_data * IPOScraper)) :=
  base <- getattr base_url self ;;
  let url := base ++ lit "/ipo/recent/" in
  response <- _make_request self url ;;
  match response with
  | None => log Failed_initial_page ;;; ret None
  | Some soup =>
      total_pages <- lift (_extract_pagination_info int soup) ;;
      log (Found_pages total_pages) ;;;
      st <- page_loop url total_pages (page_range total_pages) ([], self) ;;
      ret (Some st)
  end.

(** [scrape_ipo_data] *)
Definition scrape_ipo_data (self : IPOScraper) : M unit :=
  collected <- collect self ;;
  match collected with
  | None => ret tt
  | Some st => save_results st
  end.

(** [main] *)
Definition main : M unit :=
  scraper <- __init__ default_base_url ;;
  scrape_ipo_data scraper.

End Run.

(** ** Observations *)

(** The identifier of a record, from its own fields (the f-string of
    [ipo_id] is built from the same two texts). *)
Definition record_id (d : ipo_data) : pystr :=
  Company d ++ lit "_" ++ Listing_Date d.

(** The instance as [__init__] leaves it, with [seen] loaded. *)
Definition constructed (base : pystr) (seen : gset pystr) : IPOScraper :=
  {| base_url := Some base;
     headers := Some [(lit "User-Agent", user_agent)];
     processed_ipos := Some seen;
     output_file := Some "ipo_data.xlsx"%string;
     processed_file := Some "processed_ipos.json"%string |}.

(** The events that put content in a file. *)
Definition is_write (e : event) : bool :=
  match e with
  | Write _ _ => true
  | _ => false
  end.

(** The file writes among some events, in order. *)
Definition writes (evs : list event) : list event := List.filter is_write evs.

(** The rows of the Output Table on disk (none when there is no
    spreadsheet at its path). *)
Definition output_table (w : world) : list ipo_data :=
  match fs w !! "ipo_data.xlsx"%string with
  | Some (Xlsx rows) => rows
  | _ => []
  end.

(** Whether [pd.read_excel] can be applied in [save_results]: there is
    no file at the path of the Output Table, or a spreadsheet. *)
Definition output_readable (w : world) : bool :=
  match fs w !! "ipo_data.xlsx"%string with
  | None | Some (Xlsx _) => true
  | Some _ => false
  end.

(** ** Predicates on computations and loop states *)

(** A computation is quiet when it leaves every file as it was and
    appends to the trace only events that are not writes. *)
Definition quiet {A} (m : M A) : Prop :=
  forall w,
    fs (snd (m w)) = fs w
    /\ exists evs, trace (snd (m w)) = trace w ++ evs /\ writes evs = [].

(** [post m Q]: every value [m] returns satisfies [Q]. *)
Definition post {A} (m : M A) (Q : A -> Prop) : Prop :=
  forall w a w', m w = (Ok a, w') -> Q a.

(** The state of the loops of one run that started from [self0], whose
    set was [seen0]: the records accumulated so far have pairwise
    distinct identifiers, none of them in [seen0], and the set of the
    instance is [seen0] with these identifiers added. *)
Definition accumulated (self0 : IPOScraper) (seen0 : gset pystr)
    (st : list ipo_data * IPOScraper) : Prop :=
  NoDup (map record_id (fst st))
  /\ (forall x, x ∈ map record_id (fst st) -> x ∉ seen0)
  /\ snd st = set_processed self0 (seen0 ∪ list_to_set (map record_id (fst st))).

(** What a whole run may have done between [w] and [w']: either nothing
    was written and the files are as they were, or exactly two files
    were written, the Output Table first, with new rows after the old
    ones, and the Deduplication Set second. *)
Definition run_outcome (w w' : world) : Prop :=
  exists evs,
    trace w' = trace w ++ evs
    /\ ((writes evs = [] /\ fs w' = fs w)
        \/ (exists new ids,
              new <> []
              /\ writes evs
                 = [ Write "ipo_data.xlsx" (Xlsx (output_table w ++ new));
                     Write "processed_ipos.json" (Json ids) ]
              /\ output_table w' = output_table w ++ new)).

(** ** Concrete inputs *)

Definition link_to (label href : string) : anchor :=
  {| a_text := lit label; a_href := Some (lit href) |}.

(** A page whose pagination control links to pages 1, 3 and 5 only. *)
Definition soup_pages_1_3_5 : soup :=
  {| find_pagination :=
       Some [ link_to "1" "?page=1"; link_to "3" "?page=3"; link_to "5" "?page=5" ];
     find_data_table := None |}.

(** A cell without a link. *)
Definition td (text : pystr) : cell := {| c_text := text; c_find_a := None |}.

(** A cell whose text is a link. *)
Definition td_link (name href : string) : cell :=
  {| c_text := lit name;
     c_find_a := Some {| a_text := lit name; a_href := Some (lit href) |} |}.

Definition row_acme : row :=
  {| find_all_td :=
       [ td_link "Acme" "/company/ACME/"; td (lit "1 Jan 2024"); td (lit "500");
         td (RUPEE :: lit "1,234"); td (RUPEE :: lit "1,100");
         td (DOWN_ARROW :: lit "12.5%") ] |}.

Definition row_bolt : row :=
  {| find_all_td :=
       [ td_link "Bolt" "/company/BOLT/"; td (lit "2 Feb 2024"); td (lit "80");
         td (RUPEE :: lit "50"); td (RUPEE :: lit "54");
         td (UP_ARROW :: lit "8.0%") ] |}.

(** A row whose only cell holds plain text. *)
Definition row_linkless : row := {| find_all_td := [ td (lit "Total") ] |}.

(** A row of three cells, the first with a link. *)
Definition row_short : row :=
  {| find_all_td :=
       [ td_link "Acme" "/company/ACME/"; td (lit "1 Jan 2024"); td (lit "500") ] |}.

Definition data_acme : ipo_data :=
  {| Company := lit "Acme";
     Company_Link := lit "https://www.screener.in/company/ACME/";
     Listing_Date := lit "1 Jan 2024";
     IPO_MCap := lit "500";
     IPO_Price := lit "1,234";
     Current_Price := lit "1,100";
     Percent_Change := lit "-12.5%" |}.

Definition data_bolt : ipo_data :=
  {| Company := lit "Bolt";
     Company_Link := lit "https://www.screener.in/company/BOLT/";
     Listing_Date := lit "2 Feb 2024";
     IPO_MCap := lit "80";
     IPO_Price := lit "50";
     Current_Price := lit "54";
     Percent_Change := lit "+8.0%" |}.

(** A page without pagination control whose table body has [rows]. *)
Definition page_of (rows : list row) : soup :=
  {| find_pagination := None;
     find_data_table := Some {| find_tbody := Some rows |} |}.

(** A site that answers every request with [page]; no file on disk, no
    effect yet. *)
Definition static_site (page : soup) : world :=
  {| remote := fun _ _ => Response page; clock := 0; fs := ∅; trace := [] |}.

(** A site where every request fails. *)
Definition site_down : world :=
  {| remote := fun _ _ => RequestFailed; clock := 0; fs := ∅; trace := [] |}.

(** A site listing Acme, with an Output Table that already holds Bolt. *)
Definition site_with_table : world :=
  {| remote := fun _ _ => Response (page_of [row_acme]); clock := 0;
     fs := {[ "ipo_data.xlsx"%string := Xlsx [data_bolt] ]}; trace := [] |}.

(** ** Further observations and predicates *)

(** The link of the first cell of a row, if the row has a cell and the
    cell has a link. *)
Definition first_link (r : row) : option anchor :=
  match find_all_td r with
  | [] => None
  | c0 :: _ => c_find_a c0
  end.

(** The addresses requested among some events, in order. *)
Definition gets (evs : list event) : list pystr :=
  omap (fun e => match e with Get url => Some url | _ => None end) evs.

(** [safe P E m]: every event that [m] appends to the trace satisfies
    [P], and every exception that [m] raises satisfies [E]. *)
Definition safe {A} (P : event -> Prop) (E : exn -> Prop) (m : M A) : Prop :=
  forall w,
    (exists evs, trace (snd (m w)) = trace w ++ evs /\ Forall P evs)
    /\ (forall e, fst (m w) = Raise e -> E e).

(** The events a run may produce: requests, file writes, sleeps of two
    seconds, and log entries other than a failed first page or a failed
    load for a reason other than the missing attribute. *)
Definition run_event (e : event) : Prop :=
  match e with
  | Sleep d => d = 2%Q
  | Log Failed_initial_page => False
  | Log (Error_loading e) => e = AttributeError
  | _ => True
  end.

(** The exceptions a run may end with. *)
Definition run_exn (e : exn) : Prop := e <> RequestException.

(** The records of [ds] that the row loop keeps when it starts with the
    set [seen]: those whose identifier is neither in [seen] nor the
    identifier of an earlier record of [ds]. *)
Fixpoint fresh_records (seen : gset pystr) (ds : list ipo_data) : list ipo_data :=
  match ds with
  | [] => []
  | d :: rest =>
      if bool_decide (record_id d ∈ seen)
      then fresh_records seen rest
      else d :: fresh_records ({[ record_id d ]} ∪ seen) rest
  end.

(** The address of a page of the listing. *)
Definition page_url (url : pystr) (page : Z) : pystr :=
  url ++ lit "?page=" ++ str_of_int page.

(** An event that is not a request. *)
Definition not_get (e : event) : Prop := gets [e] = [].

(** A text that does not start with whitespace. *)
Definition no_space_at_head (s : pystr) : Prop :=
  match s with
  | [] => True
  | c :: _ => isspace c = false
  end.

(** [r] is [s] without the whitespace at its two ends: [s] is [r]
    between two runs of whitespace, and [r] neither starts nor ends with
    whitespace. *)
Definition stripped_of (s r : pystr) : Prop :=
  exists pre post,
    s = pre ++ r ++ post
    /\ Forall (fun c => isspace c = true) pre
    /\ Forall (fun c => isspace c = true) post
    /\ no_space_at_head r
    /\ no_space_at_head (rev r).

(** The down arrow becomes a minus sign, the up arrow a plus sign. *)
Definition arrow_to_sign (c : N) : N :=
  if (c =? DOWN_ARROW)%N then 45%N
  else if (c =? UP_ARROW)%N then 43%N
  else c.

(** A computation is offline when it makes no request: the number of
    requests made and the answers of the site are as before. *)
Definition offline {A} (m : M A) : Prop :=
  forall w, clock (snd (m w)) = clock w /\ remote (snd (m w)) = remote w.

(** What an iteration of the loop over the pages does once the page has
    been received. *)
Definition page_rows (total_pages page : Z) (st : list ipo_data * IPOScraper)
    (soup : soup) : M (list ipo_data * IPOScraper) :=
  match find_data_table soup with
  | None => ret st
  | Some table =>
      rows <- match find_tbody table with
              | Some rows => ret rows
              | None => raise AttributeError
              end ;;
      st' <- row_loop rows st ;;
      log (Processed_page page total_pages) ;;;
      time_sleep 2 ;;;
      ret st'
  end.

(** ** Further concrete inputs *)

(** The row of Acme with whitespace around the texts of its cells and of
    its link. *)
Definition row_padded : row :=
  {| find_all_td :=
       [ {| c_text := lit " Acme ";
            c_find_a := Some {| a_text := lit " Acme ";
                                a_href := Some (lit "/company/ACME/") |} |};
         td (lit " 1 Jan 2024 "); td (lit " 500 ");
         td (lit " " ++ RUPEE :: lit " 1,234 ");
         td (RUPEE :: lit "1,100" ++ [10%N]);
         td (lit "  " ++ DOWN_ARROW :: lit "12.5% ") ] |}.


(** A row whose first cell holds a link without an address. *)
Definition row_no_href : row :=
  {| find_all_td :=
       [ {| c_text := lit "Acme";
            c_find_a := Some {| a_text := lit "Acme"; a_href := None |} |};
         td (lit "1 Jan 2024"); td (lit "500"); td (lit "10"); td (lit "11");
         td (lit "1%") ] |}.

(** A site listing Acme whose Output Table file is not a spreadsheet. *)
Definition site_with_garbage : world :=
  {| remote := fun _ _ => Response (page_of [row_acme]); clock := 0;
     fs := {[ "ipo_data.xlsx"%string := Garbage ]}; trace := [] |}.

(** A page without a data table, and a page whose data table has no
    [tbody]. *)
Definition soup_no_table : soup :=
  {| find_pagination := None; find_data_table := None |}.

Definition soup_no_tbody : soup :=
  {| find_pagination := None; find_data_table := Some {| find_tbody := None |} |}.

(** The record of Acme at a later scrape: same name and date, another
    current price. *)
Definition data_acme_later : ipo_data :=
  {| Company := lit "Acme";
     Company_Link := lit "https://www.screener.in/company/ACME/";
     Listing_Date := lit "1 Jan 2024";
     IPO_MCap := lit "500";
     IPO_Price := lit "1,234";
     Current_Price := lit "900";
     Percent_Change := lit "-27.1%" |}.

(** * Properties *)

(** ** Evaluations *)

Example strip_demo : strip (lit "  a b  ") = lit "a b".
Proof. reflexivity. Qed.

Example split_demo :
  split (lit "page=") (lit "/ipo/?page=3&page=4") = [lit "/ipo/?"; lit "3&"; lit "4"].
Proof. reflexivity. Qed.

Example replace_demo : replace (lit "ab") (lit "X") (lit "cababbab") = lit "cXXbX".
Proof. reflexivity. Qed.

Example extract_acme :
  _extract_ipo_data (constructed default_base_url ∅) row_acme
  = Ok (Some (lit "Acme_1 Jan 2024", data_acme)).
Proof. reflexivity. Qed.

Example extract_bolt :
  _extract_ipo_data (constructed default_base_url ∅) row_bolt
  = Ok (Some (lit "Bolt_2 Feb 2024", data_bolt)).
Proof. reflexivity. Qed.

Example int_demo :
  map int_ascii [lit "12"; lit " -7 "; lit "1_000"; lit "3&x"; lit ""; lit "+"; lit "1__0"]
  = [Some 12; Some (-7); Some 1000; None; None; None; None].
Proof. reflexivity. Qed.

Example pagination_demo :
  _extract_pagination_info int_ascii
    {| find_pagination := Some [ {| a_text := lit "2"; a_href := Some (lit "?page=2") |};
                                 {| a_text := lit "x"; a_href := None |};
                                 {| a_text := lit "Next"; a_href := Some (lit "?page=7&sort=a") |};
                                 {| a_text := lit "4"; a_href := Some (lit "/ipo/recent/?page=4") |} ];
       find_data_table := None |} = Ok 4.
Proof. reflexivity. Qed.

(** ** Strings *)

Lemma split_from_nonempty sep s : forall skip cur, split_from sep skip cur s <> [].
Proof.
  induction s as [|c s IH]; intros skip cur; simpl; [discriminate|].
  destruct skip as [|k]; [|apply IH].
  destruct (startswith sep (c :: s)); [discriminate|apply IH].
Qed.

Lemma startswith_nil_r sep : sep <> [] -> startswith sep [] = false.
Proof. destruct sep; [congruence|reflexivity]. Qed.

(** When the separator occurs, [split] returns at least two pieces, so
    that [split(sep)[1]] is defined. *)
Lemma split_from_contains sep s :
  sep <> [] ->
  forall cur, contains sep s = true ->
  exists a b rest, split_from sep 0 cur s = a :: b :: rest.
Proof.
  intros Hsep. induction s as [|c s IH]; intros cur Hc.
  - simpl in Hc. rewrite startswith_nil_r in Hc by assumption. discriminate.
  - cbn [contains] in Hc. cbn [split_from].
    destruct (startswith sep (c :: s)) eqn:Hst.
    + destruct (split_from sep (Nat.pred (length sep)) [] s) as [|b rest] eqn:Hsp.
      * exfalso. exact (split_from_nonempty _ _ _ _ Hsp).
      * eauto.
    + simpl in Hc. apply IH. exact Hc.
Qed.

Lemma split_index_1 sep s :
  sep <> [] -> contains sep s = true ->
  exists piece, split sep s !! 1%nat = Some piece.
Proof.
  intros Hsep Hc.
  destruct (split_from_contains sep s Hsep [] Hc) as (a & b & rest & E).
  exists b. unfold split. rewrite E. reflexivity.
Qed.

(** ** Stripped texts *)

Lemma lstrip_length s : (length (lstrip s) <= length s)%nat.
Proof.
  induction s as [|c s IH]; simpl; [lia|].
  destruct (isspace c); simpl; lia.
Qed.

Lemma lstrip_head c s t : lstrip s = c :: t -> isspace c = false.
Proof.
  induction s as [|x s IH]; simpl; [discriminate|].
  destruct (isspace x) eqn:Hx; [exact IH|].
  intros [= <- _]. exact Hx.
Qed.

Lemma lstrip_suffix s : exists pre, s = pre ++ lstrip s.
Proof.
  induction s as [|c s [pre IH]]; simpl; [exists []; reflexivity|].
  destruct (isspace c).
  - exists (c :: pre). simpl. f_equal. exact IH.
  - exists []. reflexivity.
Qed.

Lemma lstrip_sub s x : x ∈ lstrip s -> x ∈ s.
Proof.
  destruct (lstrip_suffix s) as [pre E]. intros Hx.
  rewrite E. apply elem_of_app. auto.
Qed.

Lemma lstrip_fixed s :
  match s with [] => True | c :: _ => isspace c = false end -> lstrip s = s.
Proof. destruct s as [|c s]; simpl; [reflexivity|]. intros ->. reflexivity. Qed.

(** The result of [strip] starts with no whitespace. *)
Lemma strip_lstrip s : lstrip (strip s) = strip s.
Proof.
  unfold strip.
  destruct (lstrip_suffix (rev (lstrip s))) as [pre E].
  apply lstrip_fixed.
  destruct (rev (lstrip (rev (lstrip s)))) as [|c r] eqn:Hr; [exact I|].
  apply (f_equal (@rev N)) in E. rewrite rev_involutive, rev_app_distr, Hr in E.
  simpl in E. exact (lstrip_head _ _ _ E).
Qed.

(** [strip] changes nothing in a text it has produced. *)
Lemma strip_idem s : strip (strip s) = strip s.
Proof.
  unfold strip at 1. rewrite strip_lstrip.
  unfold strip. rewrite rev_involutive.
  assert (H : forall t, lstrip (lstrip t) = lstrip t).
  { intros t. apply lstrip_fixed. destruct (lstrip t) eqn:E; [exact I|].
    exact (lstrip_head _ _ _ E). }
  rewrite H. reflexivity.
Qed.

Lemma elem_of_rev_iff (l : pystr) x : x ∈ rev l <-> x ∈ l.
Proof. rewrite !list_elem_of_In. symmetry. apply in_rev. Qed.

Lemma strip_sub s x : x ∈ strip s -> x ∈ s.
Proof.
  unfold strip. rewrite elem_of_rev_iff. intros H%lstrip_sub.
  rewrite elem_of_rev_iff in H. exact (lstrip_sub _ _ H).
Qed.

(** Replacing a single code point goes through the text position by
    position. *)
Lemma replace_char c new s :
  replace [c] new s = flat_map (fun x => if (c =? x)%N then new else [x]) s.
Proof.
  unfold replace. induction s as [|x s IH]; [reflexivity|].
  cbn [replace_from startswith flat_map length Nat.pred].
  rewrite andb_true_r. destruct (c =? x)%N; simpl; rewrite IH; reflexivity.
Qed.

Lemma replace_char_gone c new s : c ∉ new -> c ∉ replace [c] new s.
Proof.
  intros Hn. rewrite replace_char. induction s as [|x s IH]; simpl.
  - intros H. inversion H.
  - intros [H|H]%elem_of_app; [|exact (IH H)].
    destruct (c =? x)%N eqn:E; [exact (Hn H)|].
    apply list_elem_of_singleton in H. subst. rewrite N.eqb_refl in E. discriminate.
Qed.

Lemma replace_char_sub c new s x : x ∈ replace [c] new s -> x ∈ new \/ x ∈ s.
Proof.
  rewrite replace_char. induction s as [|y s IH]; simpl.
  - intros H. inversion H.
  - intros [H|H]%elem_of_app.
    + destruct (c =? y)%N; [auto|].
      apply list_elem_of_singleton in H. subst. right. apply list_elem_of_here.
    + destruct (IH H); [auto|]. right. apply list_elem_of_further. assumption.
Qed.

(** Replacing one code point that is not whitespace by another keeps a
    stripped text stripped. *)
Lemma replace_char_map c c' s :
  replace [c] [c'] s = map (fun x => if (c =? x)%N then c' else x) s.
Proof.
  rewrite replace_char. induction s as [|x s IH]; simpl; [reflexivity|].
  rewrite IH. destruct (c =? x)%N; reflexivity.
Qed.

Lemma lstrip_map (f : N -> N) s :
  (forall x, isspace (f x) = isspace x) -> lstrip (map f s) = map f (lstrip s).
Proof.
  intros Hf. induction s as [|x s IH]; simpl; [reflexivity|].
  rewrite Hf. destruct (isspace x); [exact IH|reflexivity].
Qed.

Lemma strip_map (f : N -> N) s :
  (forall x, isspace (f x) = isspace x) -> strip (map f s) = map f (strip s).
Proof.
  intros Hf. unfold strip.
  rewrite (lstrip_map f s Hf), <- map_rev, (lstrip_map f _ Hf), map_rev.
  reflexivity.
Qed.

Lemma strip_replace_char c c' s :
  isspace c = false -> isspace c' = false ->
  strip s = s -> strip (replace [c] [c'] s) = replace [c] [c'] s.
Proof.
  intros Hc Hc' Hs. rewrite replace_char_map, strip_map, Hs; [reflexivity|].
  intros x. destruct (c =? x)%N eqn:E; [|reflexivity].
  apply N.eqb_eq in E. subst. congruence.
Qed.

(** What [strip] removes is whitespace only. *)
Lemma lstrip_split s :
  exists pre, s = pre ++ lstrip s /\ Forall (fun c => isspace c = true) pre.
Proof.
  induction s as [|c s (pre & IH & Hpre)]; simpl; [exists []; auto|].
  destruct (isspace c) eqn:Hc.
  - exists (c :: pre). split; [simpl; f_equal; exact IH|]. constructor; assumption.
  - exists []. auto.
Qed.

(** [strip s] is [s] without the whitespace at its two ends. *)
Lemma strip_spec s : stripped_of s (strip s).
Proof.
  unfold stripped_of, strip.
  destruct (lstrip_split s) as (pre & E1 & F1).
  destruct (lstrip_split (rev (lstrip s))) as (pre2 & E2 & F2).
  set (u := lstrip (rev (lstrip s))) in *.
  assert (Et : lstrip s = rev u ++ rev pre2).
  { rewrite <- rev_app_distr, <- E2, rev_involutive. reflexivity. }
  exists pre, (rev pre2). split; [|split; [|split; [|split]]].
  - rewrite <- Et. exact E1.
  - exact F1.
  - apply Forall_rev, F2.
  - unfold no_space_at_head. destruct (rev u) as [|c r] eqn:Hr; [exact I|].
    simpl in Et. exact (lstrip_head _ _ _ Et).
  - rewrite rev_involutive. unfold no_space_at_head.
    destruct u as [|c r] eqn:Hu; [exact I|]. exact (lstrip_head _ _ _ Hu).
Qed.

(** Replacing a code point by nothing removes it and nothing else. *)
Lemma replace_char_filter c s :
  replace [c] [] s = List.filter (fun x => negb (c =? x)%N) s.
Proof.
  rewrite replace_char. induction s as [|x s IH]; simpl; [reflexivity|].
  rewrite IH. destruct (c =? x)%N; reflexivity.
Qed.

(** The two replacements of the percent change, position by position. *)
Lemma replace_arrows s :
  replace [UP_ARROW] (lit "+") (replace [DOWN_ARROW] (lit "-") s)
  = map arrow_to_sign s.
Proof.
  change (lit "+") with [43%N]. change (lit "-") with [45%N].
  rewrite !replace_char_map, map_map. apply map_ext. intros x.
  unfold arrow_to_sign. rewrite (N.eqb_sym x DOWN_ARROW), (N.eqb_sym x UP_ARROW).
  destruct (DOWN_ARROW =? x)%N; reflexivity.
Qed.

(** ** Row extraction *)

Lemma extract_id self r ipo_id d :
  _extract_ipo_data self r = Ok (Some (ipo_id, d)) -> ipo_id = record_id d.
Proof.
  unfold _extract_ipo_data.
  destruct (find_all_td r) as [|c0 cells]; [discriminate|].
  destruct (c_find_a c0) as [a|]; [|discriminate].
  destruct (get_href a); [|discriminate]. cbn [rbind].
  destruct (index (c0 :: cells) 1); [|discriminate]. cbn [rbind].
  destruct (attr base_url self); [|discriminate]. cbn [rbind].
  destruct (index (c0 :: cells) 2); [|discriminate]. cbn [rbind].
  destruct (index (c0 :: cells) 3); [|discriminate]. cbn [rbind].
  destruct (index (c0 :: cells) 4); [|discriminate]. cbn [rbind].
  destruct (index (c0 :: cells) 5); [|discriminate]. cbn [rbind].
  intros [= <- <-]. reflexivity.
Qed.

(** C4. A row with at least six cells whose first cell holds a link
    with an address yields the pair (identifier, record).  The company
    name is the text of the link and the listing date the text of the
    second cell, each without the whitespace at its ends; the identifier
    is that name, an underscore and that date, nothing else.  The two
    price fields are the cell texts with every rupee sign removed and
    then the whitespace at the ends removed.  The percent change is the
    cell text without the whitespace at its ends, with every down arrow
    replaced by a minus sign and every up arrow by a plus sign.  The
    last conjuncts say what these operations are, evaluate the row of
    Acme with whitespace around every text, and evaluate the three
    examples of the specification. *)
Theorem C4_extract_well_formed_row :
  (forall base seen t0 name href c1 c2 c3 c4 c5 rest,
      exists ipo_id d,
        _extract_ipo_data (constructed base seen)
          {| find_all_td :=
               {| c_text := t0;
                  c_find_a := Some {| a_text := name; a_href := Some href |} |}
               :: c1 :: c2 :: c3 :: c4 :: c5 :: rest |}
        = Ok (Some (ipo_id, d))
        /\ Company d = strip name
        /\ Company_Link d = base ++ href
        /\ Listing_Date d = strip (c_text c1)
        /\ IPO_MCap d = strip (c_text c2)
        /\ ipo_id = Company d ++ lit "_" ++ Listing_Date d
        /\ IPO_Price d = strip (replace [RUPEE] [] (c_text c3))
        /\ Current_Price d = strip (replace [RUPEE] [] (c_text c4))
        /\ Percent_Change d
           = replace [UP_ARROW] (lit "+")
               (replace [DOWN_ARROW] (lit "-") (strip (c_text c5))))
  /\ (forall s, stripped_of s (strip s))
  /\ (forall s, replace [RUPEE] [] s = List.filter (fun x => negb (RUPEE =? x)%N) s)
  /\ (forall s, replace [UP_ARROW] (lit "+") (replace [DOWN_ARROW] (lit "-") s)
                = map arrow_to_sign s)
  /\ _extract_ipo_data (constructed default_base_url ∅) row_padded
     = Ok (Some (lit "Acme_1 Jan 2024", data_acme))
  /\ strip (replace [RUPEE] [] (RUPEE :: lit "1,234")) = lit "1,234"
  /\ replace [UP_ARROW] (lit "+")
       (replace [DOWN_ARROW] (lit "-") (strip (DOWN_ARROW :: lit "12.5%")))
     = lit "-12.5%"
  /\ replace [UP_ARROW] (lit "+")
       (replace [DOWN_ARROW] (lit "-") (strip (UP_ARROW :: lit "8.0%")))
     = lit "+8.0%".
Proof.
  split.
  { intros. eexists _, _. split; [reflexivity|]. cbn. repeat split; reflexivity. }
  split; [exact strip_spec|].
  split; [intros s; apply replace_char_filter|].
  split; [exact replace_arrows|].
  repeat split; reflexivity.
Qed.

(** The statement of C4 read with the texts of the cells as they are
    does not hold.  A row of six cells whose link has no address gives
    no pair: the extraction raises [KeyError].  On the row of Acme with
    whitespace around its texts, the identifier is neither the company
    name nor the text of the link followed by an underscore and the text
    of the date cell, and the percent change is not the text of its cell
    with the arrows replaced. *)
Lemma C4_cell_text_counterexample :
  _extract_ipo_data (constructed default_base_url ∅) row_no_href = Raise KeyError
  /\ exists ipo_id d,
       _extract_ipo_data (constructed default_base_url ∅) row_padded
       = Ok (Some (ipo_id, d))
       /\ ipo_id <> Company d ++ lit "_" ++ lit " 1 Jan 2024 "
       /\ ipo_id <> lit " Acme " ++ lit "_" ++ lit " 1 Jan 2024 "
       /\ Percent_Change d
          <> replace [UP_ARROW] (lit "+")
               (replace [DOWN_ARROW] (lit "-")
                  (lit "  " ++ DOWN_ARROW :: lit "12.5% ")).
Proof.
  split; [reflexivity|].
  exists (lit "Acme_1 Jan 2024"), data_acme.
  split; [reflexivity|]. repeat split; vm_compute; discriminate.
Qed.

(** C2. A row of one to five cells whose first cell holds a link with an
    address does not come back as "no record": the extraction raises
    [IndexError] when it reads the first missing cell. *)
Theorem C2_short_row_raises base seen t0 name href (rest : list cell) :
  (length rest < 5)%nat ->
  _extract_ipo_data (constructed base seen)
    {| find_all_td :=
         {| c_text := t0;
            c_find_a := Some {| a_text := name; a_href := Some href |} |}
         :: rest |}
  = Raise IndexError.
Proof.
  intros Hlen.
  do 5 (destruct rest as [|? rest]; [reflexivity|]).
  simpl in Hlen. lia.
Qed.

Lemma C2_short_row_witness :
  _extract_ipo_data (constructed default_base_url ∅) row_short = Raise IndexError.
Proof. apply C2_short_row_raises. simpl. lia. Defined.

(** ** Page count *)

Section PageCount.

Variable int : pystr -> option Z.

(** One iteration never raises: the piece after [page=] exists whenever
    the test [page= in href] passed. *)
Lemma pagination_step_spec m link :
  pagination_step int m link
  = Ok (match page_number int link with
        | Some p => Z.max m p
        | None => m
        end).
Proof.
  unfold pagination_step, page_number, get_href.
  destruct (a_href link) as [href|]; simpl; [|reflexivity].
  destruct (contains (lit "page=") href) eqn:Hc; [|reflexivity].
  destruct (split_index_1 (lit "page=") href) as [piece Hp];
    [discriminate|exact Hc|].
  unfold index. rewrite Hp. simpl.
  destruct (int piece); reflexivity.
Qed.

Lemma pagination_loop_spec links :
  forall m, exists n,
    pagination_loop int links m = Ok n
    /\ m <= n
    /\ (forall p, p ∈ omap (page_number int) links -> p <= n)
    /\ (n = m \/ n ∈ omap (page_number int) links).
Proof.
  induction links as [|link links IH]; intros m.
  - exists m. simpl. repeat split; [lia| |auto].
    intros p Hp. inversion Hp.
  - cbn [pagination_loop]. rewrite pagination_step_spec. cbn [rbind omap list_omap].
    destruct (page_number int link) as [q|].
    + destruct (IH (Z.max m q)) as (n & E & Hm & Hall & Hin).
      exists n. repeat split; [exact E|lia| |].
      * intros p Hp. apply elem_of_cons in Hp as [->|Hp]; [lia|auto].
      * destruct Hin as [->|Hin]; [|right; apply elem_of_cons; auto].
        destruct (Z.max_spec m q) as [[_ ->]|[_ ->]];
          [right; apply elem_of_cons|]; auto.
    + destruct (IH m) as (n & E & Hm & Hall & Hin).
      exists n. repeat split; assumption.
Qed.

End PageCount.

(** C5. [_extract_pagination_info] always returns an integer, at least
    1: it is 1 when there is no pagination control; otherwise it is the
    greatest of 1 and the page numbers that parse from the links, so 1
    when none parses; links to pages 1, 3 and 5 give 5.  The general
    parts hold whatever the builtin [int] accepts. *)
Theorem C5_page_count :
  (forall int s, exists n, _extract_pagination_info int s = Ok n /\ 1 <= n)
  /\ (forall int t,
        _extract_pagination_info int
          {| find_pagination := None; find_data_table := t |} = Ok 1)
  /\ (forall int links t, exists n,
        _extract_pagination_info int
          {| find_pagination := Some links; find_data_table := t |} = Ok n
        /\ (forall p, p ∈ omap (page_number int) links -> p <= n)
        /\ (n = 1 \/ n ∈ omap (page_number int) links)
        /\ (omap (page_number int) links = [] -> n = 1))
  /\ _extract_pagination_info int_ascii soup_pages_1_3_5 = Ok 5.
Proof.
  split; [|split; [|split]].
  - intros int [[links|] t]; unfold _extract_pagination_info; simpl.
    + destruct (pagination_loop_spec int links 1) as (n & E & Hm & _).
      exists n. split; assumption.
    + exists 1. split; [reflexivity|lia].
  - reflexivity.
  - intros int links t. unfold _extract_pagination_info; simpl.
    destruct (pagination_loop_spec int links 1) as (n & E & Hm & Hall & Hin).
    exists n. repeat split; [assumption..|].
    intros Hnil. destruct Hin as [->|Hin]; [reflexivity|].
    rewrite Hnil in Hin. inversion Hin.
  - reflexivity.
Qed.

(** The bounds of C5 at the pages 1, 3 and 5. *)
Lemma C5_page_count_witness :
  exists n, _extract_pagination_info int_ascii soup_pages_1_3_5 = Ok n
            /\ 1 <= n /\ 3 <= n.
Proof.
  destruct C5_page_count as (Hge & _ & Hmax & _).
  destruct (Hmax int_ascii
              [ link_to "1" "?page=1"; link_to "3" "?page=3"; link_to "5" "?page=5" ]
              None) as (n & E & Hall & _).
  exists n. split; [exact E|]. split.
  - destruct (Hge int_ascii soup_pages_1_3_5) as (n' & E' & Hn').
    unfold soup_pages_1_3_5 in E'. rewrite E in E'. injection E' as ->. exact Hn'.
  - apply Hall. vm_compute. apply list_elem_of_further, list_elem_of_here.
Defined.

(** ** Quiet computations *)

Lemma quiet_ret {A} (a : A) : quiet (ret a).
Proof. intros w. simpl. split; [reflexivity|]. exists []. rewrite app_nil_r. auto. Qed.

Lemma quiet_raise {A} e : quiet (@raise A e).
Proof. intros w. simpl. split; [reflexivity|]. exists []. rewrite app_nil_r. auto. Qed.

Lemma quiet_lift {A} (r : result A) : quiet (lift r).
Proof. intros w. simpl. split; [reflexivity|]. exists []. rewrite app_nil_r. auto. Qed.

Lemma quiet_emit {A} (a : A) e :
  is_write e = false -> quiet (fun w => (Ok a, emit e w)).
Proof.
  intros He w. simpl. split; [reflexivity|]. exists [e]. split; [reflexivity|].
  unfold writes. simpl. rewrite He. reflexivity.
Qed.

Lemma quiet_log msg : quiet (log msg).
Proof. apply quiet_emit. reflexivity. Qed.

Lemma quiet_time_sleep d : quiet (time_sleep d).
Proof. apply quiet_emit. reflexivity. Qed.

Lemma quiet_time_random : quiet time_random.
Proof. apply quiet_raise. Qed.

Lemma quiet_requests_get url : quiet (requests_get url).
Proof.
  intros w. unfold requests_get.
  destruct (remote w (clock w) url); simpl; (split; [reflexivity|]);
    exists [Get url]; auto.
Qed.

Lemma quiet_path_exists p : quiet (path_exists p).
Proof. intros w. simpl. split; [reflexivity|]. exists []. rewrite app_nil_r. auto. Qed.

Lemma quiet_json_load p : quiet (json_load p).
Proof.
  intros w. unfold json_load.
  destruct (fs w !! p) as [[ | | ]|]; simpl; (split; [reflexivity|]);
    exists []; rewrite app_nil_r; auto.
Qed.

Lemma quiet_read_excel p : quiet (read_excel p).
Proof.
  intros w. unfold read_excel.
  destruct (fs w !! p) as [[ | | ]|]; simpl; (split; [reflexivity|]);
    exists []; rewrite app_nil_r; auto.
Qed.

Lemma quiet_getattr {A} (field : IPOScraper -> option A) self :
  quiet (getattr field self).
Proof. unfold getattr. destruct (field self); [apply quiet_ret|apply quiet_raise]. Qed.

Lemma writes_app evs1 evs2 : writes (evs1 ++ evs2) = writes evs1 ++ writes evs2.
Proof. unfold writes. apply List.filter_app. Qed.

Lemma quiet_bind {A B} (m : M A) (k : A -> M B) :
  quiet m -> (forall a, quiet (k a)) -> quiet (bind m k).
Proof.
  intros Hm Hk w. unfold bind.
  destruct (Hm w) as (Hfs & evs & Htr & Hw).
  destruct (m w) as [[a|e] w1]; simpl in *.
  - destruct (Hk a w1) as (Hfs' & evs' & Htr' & Hw').
    split; [congruence|]. exists (evs ++ evs'). split.
    + rewrite Htr', Htr, app_assoc. reflexivity.
    + rewrite writes_app, Hw, Hw'. reflexivity.
  - split; eauto.
Qed.

Lemma quiet_try_except {A} (body : M A) handler :
  quiet body -> (forall e, quiet (handler e)) -> quiet (try_except body handler).
Proof.
  intros Hm Hk w. unfold try_except.
  destruct (Hm w) as (Hfs & evs & Htr & Hw).
  destruct (body w) as [[a|e] w1]; simpl in *.
  - split; eauto.
  - destruct (Hk e w1) as (Hfs' & evs' & Htr' & Hw').
    split; [congruence|]. exists (evs ++ evs'). split.
    + rewrite Htr', Htr, app_assoc. reflexivity.
    + rewrite writes_app, Hw, Hw'. reflexivity.
Qed.

Lemma quiet_try_except_request {A} (body : M A) handler :
  quiet body -> quiet handler -> quiet (try_except_request body handler).
Proof.
  intros Hm Hk w. unfold try_except_request.
  destruct (Hm w) as (Hfs & evs & Htr & Hw).
  destruct (body w) as [[a|e] w1]; simpl in *; [split; eauto|].
  destruct e; simpl; try solve [split; eauto].
  destruct (Hk w1) as (Hfs' & evs' & Htr' & Hw').
  split; [congruence|]. exists (evs ++ evs'). split.
  - rewrite Htr', Htr, app_assoc. reflexivity.
  - rewrite writes_app, Hw, Hw'. reflexivity.
Qed.

Create HintDb quiet.
#[export] Hint Resolve quiet_ret quiet_raise quiet_lift quiet_log quiet_time_sleep
  quiet_time_random quiet_requests_get quiet_path_exists quiet_json_load
  quiet_read_excel quiet_getattr : quiet.

(** Decompose a computation along its binds and case distinctions. *)
Ltac quiet_step :=
  match goal with
  | |- quiet (bind _ _) => apply quiet_bind; [|intros ?]
  | |- quiet (try_except _ _) => apply quiet_try_except; [|intros ?]
  | |- quiet (try_except_request _ _) => apply quiet_try_except_request
  | |- quiet (if ?b then _ else _) => destruct b
  | |- quiet (match ?x with _ => _ end) => destruct x
  | |- quiet _ => solve [auto with quiet]
  end.

Ltac quiet_auto := repeat quiet_step.

Lemma quiet_load self : quiet (_load_processed_ipos self).
Proof. unfold _load_processed_ipos. quiet_auto. Qed.

Lemma quiet_init base : quiet (__init__ base).
Proof. unfold __init__. apply quiet_bind; [apply quiet_load|intros; apply quiet_ret]. Qed.

Lemma quiet_request_loop self url attempts : quiet (request_loop self url attempts).
Proof.
  induction attempts as [|attempt rest IH]; cbn [request_loop]; [apply quiet_ret|].
  quiet_auto; try exact IH.
Qed.

Lemma quiet_make_request self url : quiet (_make_request self url).
Proof. apply quiet_request_loop. Qed.

#[export] Hint Resolve quiet_load quiet_init quiet_make_request : quiet.

Section QuietRun.

Variable int : pystr -> option Z.

Lemma quiet_row_step st r : quiet (row_step st r).
Proof. destruct st as [all_ipo_data self]. unfold row_step. quiet_auto. Qed.

Lemma quiet_row_loop rows : forall st, quiet (row_loop rows st).
Proof.
  induction rows as [|r rows IH]; intros st; cbn [row_loop]; [apply quiet_ret|].
  apply quiet_bind; [apply quiet_row_step|exact IH].
Qed.

Lemma quiet_page_step url total st page : quiet (page_step url total st page).
Proof.
  unfold page_step. quiet_auto; try apply quiet_row_loop.
Qed.

Lemma quiet_page_loop url total pages : forall st, quiet (page_loop url total pages st).
Proof.
  induction pages as [|page pages IH]; intros st; cbn [page_loop]; [apply quiet_ret|].
  apply quiet_bind; [apply quiet_page_step|exact IH].
Qed.

Lemma quiet_collect self : quiet (collect int self).
Proof. unfold collect. quiet_auto; try apply quiet_page_loop. Qed.

Lemma quiet_save_nothing self : quiet (save_results ([], self)).
Proof. apply quiet_log. Qed.

End QuietRun.

(** ** Fetching *)

(** C3. When the request for a URL fails, [_make_request] neither makes
    three attempts nor returns [None]: after the first failed attempt it
    logs the error and, computing the delay, raises [AttributeError]
    ([time.random] does not exist).  One GET is issued and there is no
    sleep. *)
Theorem C3_failed_fetch_raises self hd url w :
  headers self = Some hd ->
  remote w (clock w) url = RequestFailed ->
  _make_request self url w
  = (Raise AttributeError,
     {| remote := remote w; clock := S (clock w); fs := fs w;
        trace := trace w ++ [Get url; Log (Error_fetching url)] |}).
Proof.
  intros Hh Hfail.
  unfold _make_request. cbn [seq max_retries request_loop].
  unfold bind at 1. unfold try_except_request, bind, getattr.
  rewrite Hh. cbn [ret]. unfold requests_get. rewrite Hfail.
  cbn. unfold emit. cbn. rewrite <- app_assoc. reflexivity.
Qed.

Lemma C3_failed_fetch_witness :
  _make_request (constructed default_base_url ∅) (lit "https://www.screener.in/ipo/recent/")
    site_down
  = (Raise AttributeError,
     {| remote := remote site_down; clock := 1; fs := ∅;
        trace := [ Get (lit "https://www.screener.in/ipo/recent/");
                   Log (Error_fetching (lit "https://www.screener.in/ipo/recent/")) ] |}).
Proof.
  apply (C3_failed_fetch_raises _ [(lit "User-Agent", user_agent)]); reflexivity.
Defined.

(** ** Rows without a link *)

(** C1. For a row whose first cell has no link, [_extract_ipo_data]
    returns [None] without raising, but the loop of [scrape_ipo_data]
    unpacks that value into two names and raises [TypeError]: the rows
    after it are not processed.  On a site whose only page has such a
    row before a well-formed one, the run ends with [TypeError] and
    writes nothing. *)
Theorem C1_linkless_row_raises :
  (forall self t0 rest,
      _extract_ipo_data self {| find_all_td := td t0 :: rest |} = Ok None)
  /\ (forall all_ipo_data self t0 rest w,
        row_step (all_ipo_data, self) {| find_all_td := td t0 :: rest |} w
        = (Raise TypeError, w))
  /\ fst (main int_ascii (static_site (page_of [row_linkless; row_acme])))
     = Raise TypeError
  /\ fs (snd (main int_ascii (static_site (page_of [row_linkless; row_acme])))) = ∅.
Proof.
  repeat split; reflexivity.
Qed.

(** ** Two runs in succession *)

(** C6. [__init__] calls [_load_processed_ipos] before it assigns
    [processed_file], so the load raises [AttributeError], which it
    catches, and returns the empty set: every instance starts with an
    empty set, whatever the file holds.  On a site with one listing, the
    first run stores the identifier and one row; the second run, the
    site unchanged, adds the same row again. *)
Theorem C6_second_run_adds_again :
  (forall base w, fst (__init__ base w) = Ok (constructed base ∅))
  /\ (let w1 := snd (main int_ascii (static_site (page_of [row_acme]))) in
      let w2 := snd (main int_ascii w1) in
      fs w1 !! "processed_ipos.json"%string = Some (Json [lit "Acme_1 Jan 2024"])
      /\ output_table w1 = [data_acme]
      /\ output_table w2 = [data_acme; data_acme]
      /\ last (trace w2) = Some (Log (Added_new 1))).
Proof.
  split; [reflexivity|].
  vm_compute. repeat split; reflexivity.
Qed.

(** ** Inversion of computations that return *)

Lemma bind_Ok {A B} (m : M A) (k : A -> M B) w b w' :
  bind m k w = (Ok b, w') ->
  exists a w1, m w = (Ok a, w1) /\ k a w1 = (Ok b, w').
Proof.
  unfold bind. destruct (m w) as [[a|e] w1]; [eauto|discriminate].
Qed.

Lemma getattr_Ok {A} (field : IPOScraper -> option A) self w a w' :
  getattr field self w = (Ok a, w') -> field self = Some a /\ w' = w.
Proof.
  unfold getattr. destruct (field self); cbn; [|discriminate].
  intros [= <- <-]. auto.
Qed.

Lemma lift_Ok {A} (r : result A) w a w' :
  lift r w = (Ok a, w') -> r = Ok a /\ w' = w.
Proof. unfold lift. intros [= -> <-]. auto. Qed.

Lemma post_ret {A} (a : A) (Q : A -> Prop) : Q a -> post (ret a) Q.
Proof. intros Ha w a' w' [= <- _]. exact Ha. Qed.

Lemma post_bind {A B} (m : M A) (k : A -> M B) (P : A -> Prop) (Q : B -> Prop) :
  post m P -> (forall a, P a -> post (k a) Q) -> post (bind m k) Q.
Proof.
  intros Hm Hk w b w' H.
  apply bind_Ok in H as (a & w1 & Hm' & Hk').
  exact (Hk a (Hm _ _ _ Hm') _ _ _ Hk').
Qed.

(** ** The accumulator *)

Lemma set_processed_idem self s s' :
  set_processed (set_processed self s) s' = set_processed self s'.
Proof. reflexivity. Qed.

Lemma accumulated_start self seen0 :
  processed_ipos self = Some seen0 -> accumulated self seen0 ([], self).
Proof.
  intros Hs. unfold accumulated; simpl. split; [constructor|]. split.
  - intros x Hx. inversion Hx.
  - rewrite union_empty_r_L. destruct self; simpl in *. subst. reflexivity.
Qed.

(** What one iteration of the loop over the rows does with a record. *)
Lemma row_step_record all_ipo_data self r seen ipo_id d w :
  processed_ipos self = Some seen ->
  _extract_ipo_data self r = Ok (Some (ipo_id, d)) ->
  row_step (all_ipo_data, self) r w
  = if bool_decide (ipo_id ∈ seen)
    then (Ok (all_ipo_data, self), emit (Log (Already_processed (Company d))) w)
    else (Ok (all_ipo_data ++ [d], set_processed self ({[ ipo_id ]} ∪ seen)), w).
Proof.
  intros Hs He. unfold row_step, bind, getattr, lift.
  rewrite He, Hs. cbn [ret].
  destruct (bool_decide (ipo_id ∈ seen)); reflexivity.
Qed.

Lemma row_step_accumulated self0 seen0 st r :
  accumulated self0 seen0 st -> post (row_step st r) (accumulated self0 seen0).
Proof.
  destruct st as [all_ipo_data self]. intros (Hnd & Hfresh & Hself) w st' w' H.
  simpl in Hnd, Hfresh, Hself.
  unfold row_step in H.
  apply bind_Ok in H as (ex & w1 & He & H). apply lift_Ok in He as [He ->].
  destruct ex as [[ipo_id d]|]; [|discriminate].
  pose proof (extract_id _ _ _ _ He) as ->.
  apply bind_Ok in H as (seen & w1 & Hs & H). apply getattr_Ok in Hs as [Hs ->].
  rewrite Hself in Hs. injection Hs as <-.
  destruct (bool_decide _) eqn:Hin.
  - apply bind_Ok in H as (? & w1 & _ & H). injection H as <- _.
    unfold accumulated; auto.
  - apply bind_Ok in H as (seen' & w1 & Hs' & H). apply getattr_Ok in Hs' as [Hs' ->].
    rewrite Hself in Hs'. injection Hs' as <-.
    injection H as <- _. apply bool_decide_eq_false in Hin.
    unfold accumulated; cbn [fst snd]. rewrite map_app. cbn [map].
    split; [|split].
    + apply NoDup_app. split; [exact Hnd|]. split; [|apply NoDup_singleton].
      intros x Hx ->%list_elem_of_singleton. apply Hin.
      apply elem_of_union_r, elem_of_list_to_set, Hx.
    + intros x [Hx| ->%list_elem_of_singleton]%elem_of_app; [auto|].
      intros Hx. apply Hin. apply elem_of_union_l, Hx.
    + rewrite Hself, set_processed_idem. f_equal.
      apply set_eq. intros x.
      rewrite !elem_of_union, !elem_of_list_to_set, elem_of_app,
        list_elem_of_singleton, elem_of_singleton. tauto.
Qed.

Lemma row_loop_accumulated self0 seen0 rows :
  forall st, accumulated self0 seen0 st ->
             post (row_loop rows st) (accumulated self0 seen0).
Proof.
  induction rows as [|r rows IH]; intros st Hst; cbn [row_loop].
  - apply post_ret, Hst.
  - eapply post_bind; [apply row_step_accumulated, Hst|]. exact IH.
Qed.

Lemma page_step_accumulated self0 seen0 url total st page :
  accumulated self0 seen0 st ->
  post (page_step url total st page) (accumulated self0 seen0).
Proof.
  intros Hst. unfold page_step.
  eapply post_bind; [intros ? ? ? _; exact I|]. intros [soup|] _; [|apply post_ret, Hst].
  destruct (find_data_table soup) as [t|]; [|apply post_ret, Hst].
  eapply post_bind; [intros ? ? ? _; exact I|]. intros rows _.
  eapply post_bind; [apply row_loop_accumulated, Hst|]. intros st' Hst'.
  eapply post_bind; [intros ? ? ? _; exact I|]. intros _ _.
  eapply post_bind; [intros ? ? ? _; exact I|]. intros _ _.
  apply post_ret, Hst'.
Qed.

Lemma page_loop_accumulated self0 seen0 url total pages :
  forall st, accumulated self0 seen0 st ->
             post (page_loop url total pages st) (accumulated self0 seen0).
Proof.
  induction pages as [|page pages IH]; intros st Hst; cbn [page_loop].
  - apply post_ret, Hst.
  - eapply post_bind; [apply page_step_accumulated, Hst|]. exact IH.
Qed.

(** C9. One iteration of the row loop appends the record exactly when
    its identifier is not in the set of the instance, and adds the
    identifier to the set in the same step; otherwise it leaves list and
    set as they are.  Hence, when the loop over the pages returns, the
    accumulated records have pairwise distinct identifiers, none of them
    was in the set at the start, and the set has grown by exactly these
    identifiers. *)
Theorem C9_accumulated_ids_distinct :
  (forall all_ipo_data self r seen ipo_id d w,
      processed_ipos self = Some seen ->
      _extract_ipo_data self r = Ok (Some (ipo_id, d)) ->
      ipo_id = record_id d
      /\ row_step (all_ipo_data, self) r w
         = if bool_decide (ipo_id ∈ seen)
           then (Ok (all_ipo_data, self),
                 emit (Log (Already_processed (Company d))) w)
           else (Ok (all_ipo_data ++ [d], set_processed self ({[ ipo_id ]} ∪ seen)), w))
  /\ (forall url total pages self seen0 w all_ipo_data self',
        processed_ipos self = Some seen0 ->
        fst (page_loop url total pages ([], self) w) = Ok (all_ipo_data, self') ->
        NoDup (map record_id all_ipo_data)
        /\ (forall x, x ∈ map record_id all_ipo_data -> x ∉ seen0)
        /\ processed_ipos self'
           = Some (seen0 ∪ list_to_set (map record_id all_ipo_data))).
Proof.
  split.
  - intros * Hs He. split; [exact (extract_id _ _ _ _ He)|].
    eapply row_step_record; eassumption.
  - intros * Hs Hrun.
    destruct (page_loop url total pages ([], self) w) as [res w'] eqn:E.
    simpl in Hrun. subst res.
    destruct (page_loop_accumulated self seen0 url total pages ([], self)
                (accumulated_start _ _ Hs) _ _ _ E) as (Hnd & Hfresh & Hself).
    simpl in Hnd, Hfresh, Hself. rewrite Hself. auto.
Qed.

(** Two pages, each listing Acme, Bolt and Acme again: two records. *)
Lemma C9_accumulated_ids_witness :
  NoDup (map record_id [data_acme; data_bolt])
  /\ fst (page_loop (lit "https://www.screener.in/ipo/recent/") 2 [1; 2]
            ([], constructed default_base_url ∅)
            (static_site (page_of [row_acme; row_bolt; row_acme])))
     = Ok ([data_acme; data_bolt],
           constructed default_base_url
             (∅ ∪ list_to_set (map record_id [data_acme; data_bolt]))).
Proof.
  assert (E : fst (page_loop (lit "https://www.screener.in/ipo/recent/") 2 [1; 2]
                     ([], constructed default_base_url ∅)
                     (static_site (page_of [row_acme; row_bolt; row_acme])))
              = Ok ([data_acme; data_bolt],
                    constructed default_base_url
                      (∅ ∪ list_to_set (map record_id [data_acme; data_bolt])))).
  { vm_compute. reflexivity. }
  split; [|exact E].
  destruct C9_accumulated_ids_distinct as [_ Hrun].
  exact (proj1 (Hrun _ _ _ (constructed default_base_url ∅) ∅ _ _ _ eq_refl E)).
Defined.

(** ** The Deduplication Set on disk *)

Lemma save_processed_spec self p seen w :
  processed_file self = Some p ->
  processed_ipos self = Some seen ->
  _save_processed_ipos self w
  = (Ok tt, {| remote := remote w; clock := clock w;
               fs := <[p := Json (elements seen)]> (fs w);
               trace := trace w ++ [Write p (Json (elements seen))] |}).
Proof.
  intros Hp Hs. unfold _save_processed_ipos, try_except, bind, getattr.
  rewrite Hp, Hs. cbn [ret open_w write_file fs remote clock trace].
  rewrite insert_insert_eq. reflexivity.
Qed.

Lemma load_processed_stored self p ids w :
  processed_file self = Some p ->
  fs w !! p = Some (Json ids) ->
  _load_processed_ipos self w = (Ok (list_to_set ids), w).
Proof.
  intros Hp Hf.
  unfold _load_processed_ipos, try_except, bind, getattr, path_exists, json_load.
  rewrite Hp. cbn [ret]. rewrite Hf.
  change (bool_decide (is_Some (Some (Json ids)))) with true.
  cbv beta iota. cbn [ret]. rewrite Hf. reflexivity.
Qed.

(** C10. On an instance whose [processed_file] is assigned, loading
    after saving gives back the set that was saved; and loading a stored
    list gives the set of its elements, duplicates collapsed. *)
Theorem C10_save_load_roundtrip self p :
  processed_file self = Some p ->
  (forall seen w,
      processed_ipos self = Some seen ->
      fst (_load_processed_ipos self (snd (_save_processed_ipos self w))) = Ok seen)
  /\ (forall ids w,
        fs w !! p = Some (Json ids) ->
        exists s, fst (_load_processed_ipos self w) = Ok s
                  /\ forall x, x ∈ s <-> x ∈ ids).
Proof.
  intros Hp. split.
  - intros seen w Hs.
    rewrite (save_processed_spec self p seen w Hp Hs). cbn [snd].
    rewrite (load_processed_stored self p (elements seen)); [|exact Hp|].
    + cbn [fst]. rewrite list_to_set_elements_L. reflexivity.
    + cbn [fs]. apply lookup_insert_eq.
  - intros ids w Hf. exists (list_to_set ids). split.
    + rewrite (load_processed_stored self p ids w Hp Hf). reflexivity.
    + intros x. apply elem_of_list_to_set.
Qed.

Lemma C10_save_load_witness :
  fst (_load_processed_ipos
         (constructed default_base_url {[ lit "Acme_1 Jan 2024"; lit "Bolt_2 Feb 2024" ]})
         (snd (_save_processed_ipos
                 (constructed default_base_url
                    {[ lit "Acme_1 Jan 2024"; lit "Bolt_2 Feb 2024" ]})
                 site_down)))
  = Ok {[ lit "Acme_1 Jan 2024"; lit "Bolt_2 Feb 2024" ]}.
Proof.
  destruct (C10_save_load_roundtrip
              (constructed default_base_url
                 {[ lit "Acme_1 Jan 2024"; lit "Bolt_2 Feb 2024" ]})
              "processed_ipos.json"%string eq_refl) as [Hround _].
  apply Hround. reflexivity.
Defined.

(** ** Persisting the results *)

Lemma output_table_fs w w' : fs w' = fs w -> output_table w' = output_table w.
Proof. unfold output_table. intros ->. reflexivity. Qed.

(** With new records and a readable Output Table, both files are
    written: the table with the new records after the old rows, then
    the set. *)
Lemma save_results_new d rest base seen w :
  output_readable w = true ->
  save_results (d :: rest, constructed base seen) w
  = (Ok tt,
     {| remote := remote w; clock := clock w;
        fs := <["processed_ipos.json"%string := Json (elements seen)]>
                (<["ipo_data.xlsx"%string := Xlsx (output_table w ++ d :: rest)]> (fs w));
        trace := trace w
                 ++ [ Write "ipo_data.xlsx" (Xlsx (output_table w ++ d :: rest));
                      Write "processed_ipos.json" (Json (elements seen));
                      Log (Added_new (length (d :: rest))) ] |}).
Proof.
  unfold output_readable, output_table. intros Hr.
  unfold save_results, constructed, bind, getattr, path_exists, read_excel.
  cbn [output_file ret].
  destruct (fs w !! "ipo_data.xlsx"%string) as [[ids|rows|]|] eqn:Hf;
    try discriminate.
  - change (bool_decide (is_Some (Some (Xlsx rows)))) with true.
    cbv beta iota. rewrite Hf. cbn [ret write_file].
    rewrite (save_processed_spec _ "processed_ipos.json"%string seen) by reflexivity.
    unfold log, emit. cbn [fs trace remote clock].
    rewrite <- !app_assoc. reflexivity.
  - change (bool_decide (is_Some (@None file))) with false.
    cbv beta iota. cbn [ret write_file].
    rewrite (save_processed_spec _ "processed_ipos.json"%string seen) by reflexivity.
    unfold log, emit. cbn [fs trace remote clock].
    rewrite <- !app_assoc. reflexivity.
Qed.

(** With new records and an Output Table that cannot be read,
    [pd.read_excel] raises and nothing is written. *)
Lemma save_results_unreadable d rest base seen w :
  output_readable w = false ->
  save_results (d :: rest, constructed base seen) w = (Raise ValueError, w).
Proof.
  unfold output_readable. intros Hr.
  unfold save_results, constructed, bind, getattr, path_exists, read_excel.
  cbn [output_file ret].
  destruct (fs w !! "ipo_data.xlsx"%string) as [[ids|rows|]|] eqn:Hf;
    try discriminate.
  - change (bool_decide (is_Some (Some (Json ids)))) with true.
    cbv beta iota. rewrite Hf. reflexivity.
  - change (bool_decide (is_Some (Some Garbage))) with true.
    cbv beta iota. rewrite Hf. reflexivity.
Qed.

Lemma run_outcome_quiet {A} (m : M A) w : quiet m -> run_outcome w (snd (m w)).
Proof.
  intros Hq. destruct (Hq w) as (Hfs & evs & Htr & Hw).
  exists evs. split; [exact Htr|]. left. split; assumption.
Qed.

(** A quiet computation before the run does not change its outcome. *)
Lemma run_outcome_after_quiet w0 w1 w2 :
  fs w1 = fs w0 ->
  (exists evs, trace w1 = trace w0 ++ evs /\ writes evs = []) ->
  run_outcome w1 w2 -> run_outcome w0 w2.
Proof.
  intros Hfs (evs0 & Htr0 & Hw0) (evs & Htr & Hcase).
  exists (evs0 ++ evs). split; [rewrite Htr, Htr0, app_assoc; reflexivity|].
  rewrite writes_app, Hw0. cbn [app].
  rewrite <- (output_table_fs _ _ Hfs).
  destruct Hcase as [[Hw Hfs']|Hnew]; [left|right; exact Hnew].
  split; [exact Hw|congruence].
Qed.

Lemma save_results_outcome all_ipo_data base seen w :
  run_outcome w (snd (save_results (all_ipo_data, constructed base seen) w)).
Proof.
  destruct all_ipo_data as [|d rest].
  - apply run_outcome_quiet, quiet_save_nothing.
  - destruct (output_readable w) eqn:Hr.
    + rewrite (save_results_new _ _ _ _ _ Hr). cbn [snd].
      eexists. split; [reflexivity|]. right.
      exists (d :: rest), (elements seen). split; [discriminate|].
      split; [reflexivity|].
      unfold output_table at 1. cbn [fs].
      rewrite lookup_insert_ne by discriminate.
      rewrite lookup_insert_eq. reflexivity.
    + rewrite (save_results_unreadable _ _ _ _ _ Hr). cbn [snd].
      exists []. rewrite app_nil_r. split; [reflexivity|]. left. auto.
Qed.

(** ** The whole run *)

Lemma init_spec base w :
  __init__ base w
  = (Ok (constructed base ∅), emit (Log (Error_loading AttributeError)) w).
Proof. reflexivity. Qed.

Lemma collect_accumulated int self seen :
  processed_ipos self = Some seen ->
  post (collect int self)
       (fun collected => forall st, collected = Some st -> accumulated self seen st).
Proof.
  intros Hs. unfold collect.
  eapply post_bind; [intros ? ? ? _; exact I|]. intros base _.
  eapply post_bind; [intros ? ? ? _; exact I|]. intros [soup|] _.
  - eapply post_bind; [intros ? ? ? _; exact I|]. intros total _.
    eapply post_bind; [intros ? ? ? _; exact I|]. intros _ _.
    eapply post_bind; [apply page_loop_accumulated, accumulated_start, Hs|].
    intros st Hst. apply post_ret. intros st' [= <-]. exact Hst.
  - eapply post_bind; [intros ? ? ? _; exact I|]. intros _ _.
    apply post_ret. discriminate.
Qed.

Lemma scrape_outcome int base seen w :
  run_outcome w (snd (scrape_ipo_data int (constructed base seen) w)).
Proof.
  unfold scrape_ipo_data, bind.
  destruct (quiet_collect int (constructed base seen) w) as (Hfs & Htr).
  destruct (collect int (constructed base seen) w) as [[[st|]|e] w1] eqn:E;
    cbn [snd] in *.
  - apply (run_outcome_after_quiet w w1); [exact Hfs|exact Htr|].
    destruct (collect_accumulated int (constructed base seen) seen eq_refl
                _ _ _ E st eq_refl) as (_ & _ & Hself).
    destruct st as [all_ipo_data self']. cbn [fst snd] in Hself. subst self'.
    apply (save_results_outcome all_ipo_data base).
  - destruct Htr as (evs & Htr & Hw). exists evs. auto.
  - destruct Htr as (evs & Htr & Hw). exists evs. auto.
Qed.

Lemma main_outcome int w : run_outcome w (snd (main int w)).
Proof.
  unfold main, bind. rewrite init_spec.
  apply (run_outcome_after_quiet w (emit (Log (Error_loading AttributeError)) w)).
  - reflexivity.
  - exists [Log (Error_loading AttributeError)]. auto.
  - apply scrape_outcome.
Qed.





(** * Further properties of the code *)

(** ** Outcomes of the extraction *)

Lemma extract_inv self r ipo_id d :
  _extract_ipo_data self r = Ok (Some (ipo_id, d)) ->
  exists c0 a href base c1 c2 c3 c4 c5 rest,
    find_all_td r = c0 :: c1 :: c2 :: c3 :: c4 :: c5 :: rest
    /\ c_find_a c0 = Some a /\ a_href a = Some href
    /\ base_url self = Some base
    /\ d = {| Company := strip (a_text a);
              Company_Link := base ++ href;
              Listing_Date := strip (c_text c1);
              IPO_MCap := strip (c_text c2);
              IPO_Price := strip (replace [RUPEE] [] (c_text c3));
              Current_Price := strip (replace [RUPEE] [] (c_text c4));
              Percent_Change :=
                replace [UP_ARROW] (lit "+")
                  (replace [DOWN_ARROW] (lit "-") (strip (c_text c5))) |}.
Proof.
  unfold _extract_ipo_data, get_href, attr.
  destruct (find_all_td r) as [|c0 cells]; [discriminate|].
  destruct (c_find_a c0) as [a|] eqn:Hc; [|discriminate].
  destruct (a_href a) as [href|] eqn:Ha; [|discriminate].
  destruct (base_url self) as [base|];
    destruct cells as [|c1 [|c2 [|c3 [|c4 [|c5 rest]]]]]; try discriminate.
  cbn. intros [= _ <-].
  exists c0, a, href, base, c1, c2, c3, c4, c5, rest.
  repeat split; assumption || reflexivity.
Qed.

Lemma extract_outcome base seen r :
  let res := _extract_ipo_data (constructed base seen) r in
  match first_link r with
  | None => res = Ok None
  | Some a =>
      match a_href a with
      | None => res = Raise KeyError
      | Some _ =>
          if decide (length (find_all_td r) < 6)%nat
          then res = Raise IndexError
          else exists ipo_id d, res = Ok (Some (ipo_id, d))
      end
  end.
Proof.
  unfold first_link, _extract_ipo_data, get_href.
  destruct (find_all_td r) as [|c0 cells]; [reflexivity|].
  destruct (c_find_a c0) as [a|]; [|reflexivity].
  destruct (a_href a) as [href|]; [|reflexivity].
  destruct cells as [|c1 [|c2 [|c3 [|c4 [|c5 rest]]]]];
    try (rewrite decide_True by (simpl; lia); reflexivity).
  rewrite decide_False by (simpl; lia). cbn. eauto.
Qed.

(** X1. What [_extract_ipo_data] does with a row depends only on the
    shape of the row: it returns [None] exactly when the row has no cell
    or its first cell has no link; it raises [KeyError] exactly when
    that link has no address; it raises [IndexError] exactly when the
    link has an address and the row has fewer than six cells; and it
    returns a record exactly when the link has an address and the row
    has at least six cells. *)
Theorem X1_extract_outcome_by_shape base seen r :
  let res := _extract_ipo_data (constructed base seen) r in
  (res = Ok None <-> first_link r = None)
  /\ (res = Raise KeyError <-> exists a, first_link r = Some a /\ a_href a = None)
  /\ (res = Raise IndexError
      <-> exists a href, first_link r = Some a /\ a_href a = Some href
                         /\ (length (find_all_td r) < 6)%nat)
  /\ ((exists ipo_id d, res = Ok (Some (ipo_id, d)))
      <-> exists a href, first_link r = Some a /\ a_href a = Some href
                         /\ (6 <= length (find_all_td r))%nat).
Proof.
  intros res. pose proof (extract_outcome base seen r) as H.
  fold res in H. cbv zeta in H.
  destruct (first_link r) as [a|].
  - destruct (a_href a) as [href|] eqn:Ha.
    + destruct (decide (length (find_all_td r) < 6)%nat) as [Hlen|Hlen].
      * rewrite H. repeat split; try discriminate.
        -- intros (a' & [= <-] & Hn). congruence.
        -- eauto.
        -- intros (? & ? & [=]).
        -- intros (a' & h & _ & _ & Hge). lia.
      * destruct H as (ipo_id & d & H). rewrite H. repeat split; try discriminate.
        -- intros (a' & [= <-] & Hn). congruence.
        -- intros (a' & h & _ & _ & Hlt). lia.
        -- intros _. exists a, href. repeat split; [assumption|lia].
        -- eauto.
    + rewrite H. repeat split; try discriminate.
      * eauto.
      * intros (a' & h & [= <-] & Hh & _). congruence.
      * intros (? & ? & [=]).
      * intros (a' & h & [= <-] & Hh & _). congruence.
  - rewrite H. repeat split; try discriminate.
    + intros (? & [=] & _).
    + intros (? & ? & [=] & _).
    + intros (? & ? & [=]).
    + intros (? & ? & [=] & _).
Qed.

Lemma X1_extract_outcome_witness :
  _extract_ipo_data (constructed default_base_url ∅) row_no_href = Raise KeyError.
Proof.
  apply (proj1 (proj2 (X1_extract_outcome_by_shape default_base_url ∅ row_no_href))).
  exists {| a_text := lit "Acme"; a_href := None |}. split; reflexivity.
Defined.

(** ** Normal form of the fields *)

(** X2. In every record that [_extract_ipo_data] returns, the company
    name, the listing date, the market capitalisation, the two prices
    and the percent change have no whitespace at either end ([strip]
    leaves them as they are), the two prices contain no rupee sign, and
    the percent change contains neither arrow. *)
Theorem X2_extracted_fields_normalised self r ipo_id d :
  _extract_ipo_data self r = Ok (Some (ipo_id, d)) ->
  (strip (Company d) = Company d
   /\ strip (Listing_Date d) = Listing_Date d
   /\ strip (IPO_MCap d) = IPO_MCap d
   /\ strip (IPO_Price d) = IPO_Price d
   /\ strip (Current_Price d) = Current_Price d
   /\ strip (Percent_Change d) = Percent_Change d)
  /\ (RUPEE ∉ IPO_Price d)
  /\ (RUPEE ∉ Current_Price d)
  /\ (DOWN_ARROW ∉ Percent_Change d)
  /\ (UP_ARROW ∉ Percent_Change d).
Proof.
  intros H. apply extract_inv in H
    as (c0 & a & href & base & c1 & c2 & c3 & c4 & c5 & rest & _ & _ & _ & _ & ->).
  cbn [Company Listing_Date IPO_MCap IPO_Price Current_Price Percent_Change].
  assert (Hno : forall t, RUPEE ∉ strip (replace [RUPEE] [] t)).
  { intros t Hin%strip_sub. revert Hin. apply replace_char_gone.
    intros Hin. inversion Hin. }
  repeat split; try apply strip_idem; try apply Hno.
  - apply strip_replace_char; [reflexivity..|].
    apply strip_replace_char; [reflexivity..|]. apply strip_idem.
  - intros [Hin|Hin]%replace_char_sub.
    + vm_compute in Hin. apply list_elem_of_singleton in Hin. discriminate.
    + revert Hin. apply replace_char_gone.
      intros Hin%list_elem_of_singleton. discriminate.
  - apply replace_char_gone. intros Hin%list_elem_of_singleton. discriminate.
Qed.

Lemma X2_extracted_fields_witness :
  strip (Percent_Change data_acme) = Percent_Change data_acme
  /\ (RUPEE ∉ IPO_Price data_acme).
Proof.
  destruct (X2_extracted_fields_normalised (constructed default_base_url ∅) row_acme
              (lit "Acme_1 Jan 2024") data_acme eq_refl)
    as ((_ & _ & _ & _ & _ & Hp) & Hr & _).
  split; assumption.
Defined.

(** ** The page count as a maximum *)

Lemma foldr_max_init l m q :
  foldr Z.max (Z.max m q) l = Z.max q (foldr Z.max m l).
Proof. induction l as [|p l IH]; simpl; [lia|]. rewrite IH. lia. Qed.

Lemma pagination_loop_max int links :
  forall m, pagination_loop int links m
            = Ok (foldr Z.max m (omap (page_number int) links)).
Proof.
  induction links as [|link links IH]; intros m; [reflexivity|].
  cbn [pagination_loop]. rewrite pagination_step_spec. cbn [rbind omap list_omap].
  destruct (page_number int link) as [q|]; rewrite IH; [|reflexivity].
  cbn [foldr]. rewrite foldr_max_init. reflexivity.
Qed.

Lemma foldr_max_perm m l l' :
  l ≡ₚ l' -> foldr Z.max m l = foldr Z.max m l'.
Proof.
  induction 1 as [|x l l' _ IH|x y l|l l' l'' _ IH1 _ IH2]; simpl.
  - reflexivity.
  - rewrite IH. reflexivity.
  - lia.
  - congruence.
Qed.

Lemma foldr_max_app m l1 l2 :
  foldr Z.max m (l1 ++ l2) = Z.max (foldr Z.max m l1) (foldr Z.max m l2).
Proof.
  induction l1 as [|x l1 IH]; simpl; [|rewrite IH; lia].
  induction l2 as [|y l2 IH]; simpl; lia.
Qed.

Lemma omap_perm {A B} (f : A -> option B) (l l' : list A) :
  l ≡ₚ l' -> omap f l ≡ₚ omap f l'.
Proof.
  induction 1 as [|x l l' _ IH|x y l|l l' l'' _ IH1 _ IH2]; simpl.
  - reflexivity.
  - destruct (f x); [constructor|]; exact IH.
  - destruct (f x), (f y); try reflexivity. constructor.
  - etransitivity; eassumption.
Qed.

(** X3. The page count does not depend on the order in which the
    pagination control lists its links. *)
Theorem X3_page_count_order_independent int links links' t t' :
  links ≡ₚ links' ->
  _extract_pagination_info int
    {| find_pagination := Some links; find_data_table := t |}
  = _extract_pagination_info int
      {| find_pagination := Some links'; find_data_table := t' |}.
Proof.
  intros Hp. unfold _extract_pagination_info. cbn [find_pagination].
  rewrite !pagination_loop_max. f_equal.
  apply foldr_max_perm, omap_perm, Hp.
Qed.

Lemma X3_page_count_order_witness :
  _extract_pagination_info int_ascii
    {| find_pagination :=
         Some [ link_to "5" "?page=5"; link_to "1" "?page=1"; link_to "3" "?page=3" ];
       find_data_table := None |}
  = _extract_pagination_info int_ascii soup_pages_1_3_5.
Proof.
  apply X3_page_count_order_independent.
  change [ link_to "5" "?page=5"; link_to "1" "?page=1"; link_to "3" "?page=3" ]
    with ([link_to "5" "?page=5"] ++ [ link_to "1" "?page=1"; link_to "3" "?page=3" ]).
  change [ link_to "1" "?page=1"; link_to "3" "?page=3"; link_to "5" "?page=5" ]
    with ([ link_to "1" "?page=1"; link_to "3" "?page=3" ] ++ [link_to "5" "?page=5"]).
  apply Permutation_app_comm.
Defined.

(** X4. A link that has no address, whose address does not contain
    [page=], or whose text after [page=] is not an integer, does not
    change the page count; and listing more links never lowers it. *)
Theorem X4_page_count_ignores_and_grows int :
  (forall link, a_href link = None -> page_number int link = None)
  /\ (forall link href,
        a_href link = Some href -> contains (lit "page=") href = false ->
        page_number int link = None)
  /\ (forall l1 link l2 t,
        page_number int link = None ->
        _extract_pagination_info int
          {| find_pagination := Some (l1 ++ link :: l2); find_data_table := t |}
        = _extract_pagination_info int
            {| find_pagination := Some (l1 ++ l2); find_data_table := t |})
  /\ (forall links more t, exists n n',
        _extract_pagination_info int
          {| find_pagination := Some links; find_data_table := t |} = Ok n
        /\ _extract_pagination_info int
             {| find_pagination := Some (links ++ more); find_data_table := t |} = Ok n'
        /\ n <= n').
Proof.
  split; [|split; [|split]].
  - intros link H. unfold page_number. rewrite H. reflexivity.
  - intros link href H Hc. unfold page_number. rewrite H, Hc. reflexivity.
  - intros l1 link l2 t H. unfold _extract_pagination_info. cbn [find_pagination].
    rewrite !pagination_loop_max. f_equal.
    rewrite !omap_app. cbn [omap list_omap]. rewrite H. reflexivity.
  - intros links more t. unfold _extract_pagination_info. cbn [find_pagination].
    rewrite !pagination_loop_max. eexists _, _. split; [reflexivity|].
    split; [reflexivity|]. rewrite omap_app, foldr_max_app. lia.
Qed.

Lemma X4_page_count_witness :
  _extract_pagination_info int_ascii
    {| find_pagination :=
         Some ([link_to "1" "?page=1"]
                 ++ link_to "Next" "/ipo/recent/" :: [link_to "3" "?page=3"]);
       find_data_table := None |}
  = _extract_pagination_info int_ascii
      {| find_pagination := Some ([link_to "1" "?page=1"] ++ [link_to "3" "?page=3"]);
         find_data_table := None |}.
Proof.
  destruct (X4_page_count_ignores_and_grows int_ascii) as (_ & Hno & Hskip & _).
  apply Hskip. apply (Hno _ (lit "/ipo/recent/")); reflexivity.
Defined.

(** ** One request per call *)

Lemma make_request_cases self url w :
  _make_request self url w
  = match headers self with
    | None => (Raise AttributeError, w)
    | Some _ =>
        match remote w (clock w) url with
        | Response page =>
            (Ok (Some page),
             {| remote := remote w; clock := S (clock w); fs := fs w;
                trace := trace w ++ [Get url] |})
        | RequestFailed =>
            (Raise AttributeError,
             {| remote := remote w; clock := S (clock w); fs := fs w;
                trace := trace w ++ [Get url; Log (Error_fetching url)] |})
        end
    end.
Proof.
  destruct (headers self) as [hd|] eqn:Hh.
  - destruct (remote w (clock w) url) as [page|] eqn:Hr.
    + unfold _make_request. cbn [seq max_retries request_loop].
      unfold bind at 1. unfold try_except_request, bind, getattr.
      rewrite Hh. cbn [ret]. unfold requests_get. rewrite Hr. reflexivity.
    + unfold _make_request. cbn [seq max_retries request_loop].
      unfold bind at 1. unfold try_except_request, bind, getattr.
      rewrite Hh. cbn [ret]. unfold requests_get. rewrite Hr.
      cbn. unfold emit. cbn. rewrite <- app_assoc. reflexivity.
  - unfold _make_request. cbn [seq max_retries request_loop].
    unfold bind at 1. unfold try_except_request, bind, getattr.
    rewrite Hh. reflexivity.
Qed.

(** X5. A call of [_make_request] issues at most one GET and never
    sleeps; it never returns [None]; and it returns a response exactly
    when the first GET succeeds, that response being the one received. *)
Theorem X5_make_request_one_attempt self url w :
  fst (_make_request self url w) <> Ok None
  /\ (clock (snd (_make_request self url w)) <= S (clock w))%nat
  /\ (exists evs,
        trace (snd (_make_request self url w)) = trace w ++ evs
        /\ (gets evs = [] \/ gets evs = [url])
        /\ forall d, Sleep d ∉ evs)
  /\ (forall page,
        fst (_make_request self url w) = Ok (Some page)
        <-> is_Some (headers self) /\ remote w (clock w) url = Response page).
Proof.
  rewrite make_request_cases.
  destruct (headers self) as [hd|]; [destruct (remote w (clock w) url) as [page|]|];
    cbn [fst snd clock trace].
  - split; [discriminate|]. split; [lia|]. split.
    + exists [Get url]. split; [reflexivity|]. split; [right; reflexivity|].
      intros d Hin%list_elem_of_singleton. discriminate.
    + intros page'; split.
      * intros [= <-]. split; [eexists|]; reflexivity.
      * intros [_ [= <-]]. reflexivity.
  - split; [discriminate|]. split; [lia|]. split.
    + exists [Get url; Log (Error_fetching url)]. split; [reflexivity|].
      split; [right; reflexivity|].
      intros d [Hin|Hin%list_elem_of_singleton]%elem_of_cons; discriminate.
    + intros page'; split; [discriminate|]. intros [_ [=]].
  - split; [discriminate|]. split; [lia|]. split.
    + exists []. rewrite app_nil_r. split; [reflexivity|]. split; [left; reflexivity|].
      intros d Hin. inversion Hin.
    + intros page'; split; [discriminate|]. intros [[? [=]] _].
Qed.

Lemma X5_make_request_witness :
  fst (_make_request (constructed default_base_url ∅)
         (lit "https://www.screener.in/ipo/recent/") (static_site (page_of [row_acme])))
  = Ok (Some (page_of [row_acme])).
Proof.
  apply (proj2 (proj2 (proj2 (X5_make_request_one_attempt _ _ _)))).
  split; [eexists|]; reflexivity.
Defined.

(** ** Loading and saving never fail *)

Lemma load_processed_cases self w :
  _load_processed_ipos self w
  = match processed_file self with
    | None => (Ok ∅, emit (Log (Error_loading AttributeError)) w)
    | Some p =>
        match fs w !! p with
        | None => (Ok ∅, w)
        | Some (Json ids) => (Ok (list_to_set ids), w)
        | Some _ => (Ok ∅, emit (Log (Error_loading ValueError)) w)
        end
    end.
Proof.
  destruct (processed_file self) as [p|] eqn:Hp.
  - destruct (fs w !! p) as [[ids|rows|]|] eqn:Hf.
    + apply (load_processed_stored self p ids w Hp Hf).
    + unfold _load_processed_ipos, try_except, bind, getattr, path_exists, json_load.
      rewrite Hp. cbn [ret]. rewrite Hf.
      change (bool_decide (is_Some (Some (Xlsx rows)))) with true.
      cbv beta iota. cbn [ret]. rewrite Hf. reflexivity.
    + unfold _load_processed_ipos, try_except, bind, getattr, path_exists, json_load.
      rewrite Hp. cbn [ret]. rewrite Hf.
      change (bool_decide (is_Some (Some Garbage))) with true.
      cbv beta iota. cbn [ret]. rewrite Hf. reflexivity.
    + unfold _load_processed_ipos, try_except, bind, getattr, path_exists, json_load.
      rewrite Hp. cbn [ret]. rewrite Hf. reflexivity.
  - unfold _load_processed_ipos, try_except, bind, getattr. rewrite Hp. reflexivity.
Qed.

(** X6. [_load_processed_ipos] never raises and never changes a file.
    It returns the empty set, without any log entry, when the file named
    by [processed_file] does not exist, and the empty set, with the
    error logged, when that attribute is not assigned; so a set that is
    not empty is only ever returned when the file exists. *)
Theorem X6_load_never_raises self w :
  (exists s, fst (_load_processed_ipos self w) = Ok s
             /\ (s <> ∅ -> exists p, processed_file self = Some p
                                     /\ is_Some (fs w !! p)))
  /\ fs (snd (_load_processed_ipos self w)) = fs w
  /\ (forall p, processed_file self = Some p -> fs w !! p = None ->
                _load_processed_ipos self w = (Ok ∅, w))
  /\ (processed_file self = None ->
      _load_processed_ipos self w
      = (Ok ∅, emit (Log (Error_loading AttributeError)) w)).
Proof.
  rewrite load_processed_cases.
  destruct (processed_file self) as [p|].
  - destruct (fs w !! p) as [[ids|rows|]|] eqn:Hf; cbn [fst snd].
    + split; [|split; [reflexivity|split; [|discriminate]]].
      * exists (list_to_set ids). split; [reflexivity|]. intros _. exists p.
        rewrite Hf. eauto.
      * intros p' [= <-] Hn. congruence.
    + split; [|split; [reflexivity|split; [|discriminate]]].
      * exists ∅. split; [reflexivity|]. congruence.
      * intros p' [= <-] Hn. congruence.
    + split; [|split; [reflexivity|split; [|discriminate]]].
      * exists ∅. split; [reflexivity|]. congruence.
      * intros p' [= <-] Hn. congruence.
    + split; [|split; [reflexivity|split; [|discriminate]]].
      * exists ∅. split; [reflexivity|]. congruence.
      * reflexivity.
  - cbn [fst snd]. split; [|split; [reflexivity|split; [discriminate|reflexivity]]].
    exists ∅. split; [reflexivity|]. congruence.
Qed.

Lemma X6_load_witness :
  _load_processed_ipos (constructed default_base_url ∅) site_down = (Ok ∅, site_down).
Proof.
  apply (proj1 (proj2 (proj2 (X6_load_never_raises (constructed default_base_url ∅)
                                site_down)))
           "processed_ipos.json"%string); reflexivity.
Defined.

(** X7. [_save_processed_ipos] never raises, and it changes no file
    other than the one named by [processed_file]. *)
Theorem X7_save_never_raises self w :
  fst (_save_processed_ipos self w) = Ok tt
  /\ (forall q, processed_file self <> Some q ->
                fs (snd (_save_processed_ipos self w)) !! q = fs w !! q).
Proof.
  unfold _save_processed_ipos, try_except, bind, getattr.
  destruct (processed_file self) as [p|]; [|split; reflexivity].
  cbn [ret open_w].
  destruct (processed_ipos self) as [s|]; cbn [fst snd fs ret raise write_file log emit].
  - split; [reflexivity|]. intros q Hq.
    rewrite !lookup_insert_ne by congruence. reflexivity.
  - split; [reflexivity|]. intros q Hq.
    rewrite lookup_insert_ne by congruence. reflexivity.
Qed.

Lemma X7_save_witness :
  fs (snd (_save_processed_ipos (constructed default_base_url ∅) site_with_table))
    !! "ipo_data.xlsx"%string
  = Some (Xlsx [data_bolt]).
Proof.
  rewrite (proj2 (X7_save_never_raises (constructed default_base_url ∅) site_with_table));
    [reflexivity|discriminate].
Defined.

(** ** Events and exceptions of a computation *)

Section Safe.

Variable P : event -> Prop.
Variable E : exn -> Prop.

Lemma safe_ret {A} (a : A) : safe P E (ret a).
Proof.
  intros w. split; [exists []; rewrite app_nil_r; auto|]. discriminate.
Qed.

Lemma safe_raise {A} e : E e -> safe P E (@raise A e).
Proof.
  intros He w. split; [exists []; rewrite app_nil_r; auto|].
  intros e' [= <-]. exact He.
Qed.

Lemma safe_lift {A} (r : result A) :
  (forall e, r = Raise e -> E e) -> safe P E (lift r).
Proof.
  intros Hr w. split; [exists []; rewrite app_nil_r; auto|]. exact Hr.
Qed.

Lemma safe_getattr {A} (field : IPOScraper -> option A) self :
  E AttributeError -> safe P E (getattr field self).
Proof.
  intros He. unfold getattr. destruct (field self); [apply safe_ret|apply safe_raise, He].
Qed.

Lemma safe_log msg : P (Log msg) -> safe P E (log msg).
Proof.
  intros Hp w. split; [exists [Log msg]; auto|]. discriminate.
Qed.

Lemma safe_time_sleep d : P (Sleep d) -> safe P E (time_sleep d).
Proof.
  intros Hp w. split; [exists [Sleep d]; auto|]. discriminate.
Qed.

Lemma safe_requests_get url :
  P (Get url) -> E RequestException -> safe P E (requests_get url).
Proof.
  intros Hp He w. unfold requests_get.
  destruct (remote w (clock w) url); (split; [exists [Get url]; auto|]).
  - discriminate.
  - intros e [= <-]. exact He.
Qed.

Lemma safe_path_exists p : safe P E (path_exists p).
Proof. intros w. split; [exists []; rewrite app_nil_r; auto|]. discriminate. Qed.

Lemma safe_json_load p : E ValueError -> safe P E (json_load p).
Proof.
  intros He w. unfold json_load.
  destruct (fs w !! p) as [[ | | ]|]; (split; [exists []; rewrite app_nil_r; auto|]);
    try discriminate; intros e [= <-]; exact He.
Qed.

Lemma safe_read_excel p : E ValueError -> safe P E (read_excel p).
Proof.
  intros He w. unfold read_excel.
  destruct (fs w !! p) as [[ | | ]|]; (split; [exists []; rewrite app_nil_r; auto|]);
    try discriminate; intros e [= <-]; exact He.
Qed.

Lemma safe_write_file p f : P (Write p f) -> safe P E (write_file p f).
Proof. intros Hp w. split; [exists [Write p f]; auto|]. discriminate. Qed.

Lemma safe_open_w p : safe P E (open_w p).
Proof. intros w. split; [exists []; rewrite app_nil_r; auto|]. discriminate. Qed.

(** Sequencing, where [Q] holds of every value the first part returns. *)
Lemma safe_bind_post {A B} (m : M A) (k : A -> M B) (Q : A -> Prop) :
  safe P E m -> post m Q -> (forall a, Q a -> safe P E (k a)) ->
  safe P E (bind m k).
Proof.
  intros Hm Hq Hk w. unfold bind.
  destruct (Hm w) as ((evs & Htr & Hev) & Hex).
  destruct (m w) as [[a|e] w1] eqn:Em; cbn [fst snd] in *.
  - destruct (Hk a (Hq _ _ _ Em) w1) as ((evs' & Htr' & Hev') & Hex').
    split; [|exact Hex'].
    exists (evs ++ evs'). split; [rewrite Htr', Htr, app_assoc; reflexivity|].
    apply Forall_app. auto.
  - split; [eauto|]. intros e' [= <-]. exact (Hex e eq_refl).
Qed.

Lemma safe_bind {A B} (m : M A) (k : A -> M B) :
  safe P E m -> (forall a, safe P E (k a)) -> safe P E (bind m k).
Proof.
  intros Hm Hk. apply (safe_bind_post m k (fun _ => True)); auto.
  intros ? ? ? _. exact I.
Qed.

End Safe.

(** A handler for [RequestException] removes it from the exceptions. *)
Lemma safe_try_except_request {A} P (E : exn -> Prop) (body handler : M A) :
  safe P (fun e => e = RequestException \/ E e) body ->
  safe P E handler ->
  safe P E (try_except_request body handler).
Proof.
  intros Hb Hh w. unfold try_except_request.
  destruct (Hb w) as ((evs & Htr & Hev) & Hex).
  destruct (body w) as [[a|e] w1]; cbn [fst snd] in *.
  - split; [eauto|]. discriminate.
  - destruct e;
      try (split; [eauto|]; intros e' [= <-];
           destruct (Hex _ eq_refl) as [[=]|He]; exact He).
    destruct (Hh w1) as ((evs' & Htr' & Hev') & Hex').
    split; [|exact Hex'].
    exists (evs ++ evs'). split; [rewrite Htr', Htr, app_assoc; reflexivity|].
    apply Forall_app. auto.
Qed.

(** A handler for every exception. *)
Lemma safe_try_except {A} P (E : exn -> Prop) (body : M A) handler :
  safe P (fun _ => True) body ->
  (forall e, safe P E (handler e)) ->
  safe P E (try_except body handler).
Proof.
  intros Hb Hh w. unfold try_except.
  destruct (Hb w) as ((evs & Htr & Hev) & _).
  destruct (body w) as [[a|e] w1]; cbn [fst snd] in *.
  - split; [eauto|]. discriminate.
  - destruct (Hh e w1) as ((evs' & Htr' & Hev') & Hex').
    split; [|exact Hex'].
    exists (evs ++ evs'). split; [rewrite Htr', Htr, app_assoc; reflexivity|].
    apply Forall_app. auto.
Qed.

(** ** What a run emits and raises *)

Lemma extract_exn self r e :
  _extract_ipo_data self r = Raise e -> e <> RequestException.
Proof.
  unfold _extract_ipo_data, get_href, attr.
  destruct (find_all_td r) as [|c0 cells]; [discriminate|].
  destruct (c_find_a c0) as [a|]; [|discriminate].
  destruct (a_href a) as [href|]; [|intros [= <-]; discriminate].
  destruct (base_url self) as [base|];
    destruct cells as [|c1 [|c2 [|c3 [|c4 [|c5 rest]]]]];
    cbn; intros [= <-]; discriminate.
Qed.

Lemma pagination_returns int s e : _extract_pagination_info int s <> Raise e.
Proof.
  unfold _extract_pagination_info. destruct (find_pagination s) as [links|];
    [rewrite pagination_loop_max|]; discriminate.
Qed.

Lemma post_make_request self url :
  post (_make_request self url) (fun response => response <> None).
Proof.
  intros w a w'. rewrite make_request_cases.
  destruct (headers self); [destruct (remote w (clock w) url)|];
    intros [= <- _]; discriminate.
Qed.

Lemma safe_make_request self url : safe run_event run_exn (_make_request self url).
Proof.
  intros w. rewrite make_request_cases.
  destruct (headers self); [destruct (remote w (clock w) url)|]; cbn [fst snd trace].
  - split; [exists [Get url]; split; [reflexivity|]; repeat constructor|]. discriminate.
  - split; [exists [Get url; Log (Error_fetching url)]; split; [reflexivity|];
            repeat constructor|].
    intros e [= <-]. discriminate.
  - split; [exists []; rewrite app_nil_r; auto|]. intros e [= <-]. discriminate.
Qed.

Ltac safe_side := first [exact I | reflexivity | discriminate].

Ltac safe_step :=
  match goal with
  | |- safe _ _ (bind _ _) => apply safe_bind; [|intros ?]
  | |- safe _ _ (try_except _ _) => apply safe_try_except; [|intros ?]
  | |- safe _ _ (ret _) => apply safe_ret
  | |- safe _ _ (raise _) => apply safe_raise; safe_side
  | |- safe _ _ (getattr _ _) => apply safe_getattr; safe_side
  | |- safe _ _ (log _) => apply safe_log; safe_side
  | |- safe _ _ (time_sleep _) => apply safe_time_sleep; safe_side
  | |- safe _ _ (path_exists _) => apply safe_path_exists
  | |- safe _ _ (read_excel _) => apply safe_read_excel; safe_side
  | |- safe _ _ (write_file _ _) => apply safe_write_file; safe_side
  | |- safe _ _ (open_w _) => apply safe_open_w
  | |- safe run_event run_exn (_make_request _ _) => apply safe_make_request
  | |- safe _ _ (if ?b then _ else _) => destruct b
  | |- safe _ _ (match ?x with _ => _ end) => destruct x
  end.

Lemma safe_row_step st r : safe run_event run_exn (row_step st r).
Proof.
  destruct st as [all_ipo_data self]. unfold row_step.
  apply safe_bind; [apply safe_lift, extract_exn|]. intros extracted.
  repeat safe_step.
Qed.

Lemma safe_row_loop rows : forall st, safe run_event run_exn (row_loop rows st).
Proof.
  induction rows as [|r rows IH]; intros st; cbn [row_loop]; [apply safe_ret|].
  apply safe_bind; [apply safe_row_step|exact IH].
Qed.

Lemma safe_page_step url total st page :
  safe run_event run_exn (page_step url total st page).
Proof.
  unfold page_step. repeat safe_step. apply safe_row_loop.
Qed.

Lemma safe_page_loop url total pages :
  forall st, safe run_event run_exn (page_loop url total pages st).
Proof.
  induction pages as [|page pages IH]; intros st; cbn [page_loop]; [apply safe_ret|].
  apply safe_bind; [apply safe_page_step|exact IH].
Qed.

Lemma safe_collect int self : safe run_event run_exn (collect int self).
Proof.
  unfold collect. safe_step; [safe_step|].
  eapply safe_bind_post; [apply safe_make_request|apply post_make_request|].
  intros [soup|] Hsome; [|congruence].
  apply safe_bind.
  { apply safe_lift. intros e He. destruct (pagination_returns _ _ _ He). }
  intros total. safe_step; [safe_step|].
  apply safe_bind; [apply safe_page_loop|]. intros st. apply safe_ret.
Qed.

Lemma safe_save_processed base seen :
  safe run_event run_exn (_save_processed_ipos (constructed base seen)).
Proof.
  intros w.
  rewrite (save_processed_spec _ "processed_ipos.json"%string seen) by reflexivity.
  cbn [fst snd trace]. split; [|discriminate].
  eexists. split; [reflexivity|]. repeat constructor.
Qed.

Lemma safe_save_results all_ipo_data base seen :
  safe run_event run_exn (save_results (all_ipo_data, constructed base seen)).
Proof.
  unfold save_results. destruct all_ipo_data as [|d rest]; [safe_step|].
  repeat safe_step. apply safe_save_processed.
Qed.

Lemma safe_scrape int base seen :
  safe run_event run_exn (scrape_ipo_data int (constructed base seen)).
Proof.
  unfold scrape_ipo_data.
  eapply safe_bind_post;
    [apply safe_collect
    |apply (collect_accumulated int (constructed base seen) seen eq_refl)|].
  intros [[all_ipo_data self']|] Hacc; [|apply safe_ret].
  destruct (Hacc _ eq_refl) as (_ & _ & Hself). cbn [fst snd] in Hself. subst self'.
  apply (safe_save_results all_ipo_data base).
Qed.

Lemma safe_main int : safe run_event run_exn (main int).
Proof.
  unfold main.
  apply (safe_bind_post _ _ _ _ (fun self => self = constructed default_base_url ∅)).
  - intros w. rewrite init_spec. cbn [fst snd]. split; [|discriminate].
    exists [Log (Error_loading AttributeError)]. split; [reflexivity|].
    repeat constructor.
  - intros w a w'. rewrite init_spec. intros [= <- _]. reflexivity.
  - intros self ->. apply safe_scrape.
Qed.

(** X8. A failed request never surfaces as a [RequestException]:
    whatever the site answers and whatever is on disk, a run of [main]
    does not end with that exception. *)
Theorem X8_request_exception_never_escapes int w :
  fst (main int w) <> Raise RequestException.
Proof.
  intros H. exact (proj2 (safe_main int w) _ H eq_refl).
Qed.

(** X9. Of the events of a run of [main], every sleep lasts two seconds
    (the back-off sleep between attempts is never reached), the message
    for a failed first page is never logged, and the only failure to
    load that is logged is the one for the attribute that is not
    assigned yet. *)
Theorem X9_run_events int w :
  exists evs,
    trace (snd (main int w)) = trace w ++ evs
    /\ (forall d, Sleep d ∈ evs -> d = 2%Q)
    /\ (Log Failed_initial_page ∉ evs)
    /\ (forall e, Log (Error_loading e) ∈ evs -> e = AttributeError).
Proof.
  destruct (proj1 (safe_main int w)) as (evs & Htr & Hev).
  exists evs. split; [exact Htr|].
  rewrite Forall_forall in Hev.
  repeat split.
  - intros d Hin. exact (Hev _ Hin).
  - intros Hin. exact (Hev _ Hin).
  - intros e Hin. exact (Hev _ Hin).
Qed.

(** ** The row loop on well-formed rows *)

Lemma set_processed_same self seen :
  processed_ipos self = Some seen -> set_processed self seen = self.
Proof. destruct self; simpl. intros ->. reflexivity. Qed.

Lemma row_loop_well_formed self0 rows ds :
  Forall2 (fun r d => _extract_ipo_data self0 r = Ok (Some (record_id d, d))) rows ds ->
  forall all_ipo_data seen w,
  exists w',
    row_loop rows (all_ipo_data, set_processed self0 seen) w
    = (Ok (all_ipo_data ++ fresh_records seen ds,
           set_processed self0 (seen ∪ list_to_set (map record_id ds))), w')
    /\ fs w' = fs w
    /\ exists evs, trace w' = trace w ++ evs /\ gets evs = [] /\ writes evs = [].
Proof.
  induction 1 as [|r d rows ds Hr _ IH]; intros all_ipo_data seen w.
  - exists w. cbn [row_loop fresh_records map list_to_set]. split; [|split].
    + unfold ret. rewrite app_nil_r, union_empty_r_L. reflexivity.
    + reflexivity.
    + exists []. rewrite app_nil_r. auto.
  - cbn [row_loop]. unfold bind at 1.
    rewrite (row_step_record _ _ r seen (record_id d) d) by (reflexivity || exact Hr).
    cbn [fresh_records map].
    destruct (bool_decide (record_id d ∈ seen)) eqn:Hin.
    + apply bool_decide_eq_true in Hin.
      destruct (IH all_ipo_data seen (emit (Log (Already_processed (Company d))) w))
        as (w' & E & Hfs & evs & Htr & Hg & Hw).
      exists w'. split; [|split].
      * assert (Hset : seen ∪ list_to_set (record_id d :: map record_id ds)
                       = seen ∪ list_to_set (map record_id ds)).
        { apply set_eq. intros x.
          rewrite !elem_of_union, !elem_of_list_to_set, elem_of_cons.
          split; [|tauto]. intros [H|[->|H]]; auto. }
        rewrite E, Hset. reflexivity.
      * exact Hfs.
      * exists (Log (Already_processed (Company d)) :: evs).
        split; [rewrite Htr; cbn [emit trace]; rewrite <- app_assoc; reflexivity|].
        split; assumption.
    + destruct (IH (all_ipo_data ++ [d]) ({[ record_id d ]} ∪ seen) w)
        as (w' & E & Hfs & Hev).
      exists w'. split; [|split; assumption].
      change (set_processed (set_processed self0 seen) ({[record_id d]} ∪ seen))
        with (set_processed self0 ({[record_id d]} ∪ seen)).
      assert (Hset : {[ record_id d ]} ∪ seen ∪ list_to_set (map record_id ds)
                     = seen ∪ list_to_set (record_id d :: map record_id ds)).
      { apply set_eq. intros x.
        rewrite !elem_of_union, !elem_of_list_to_set, elem_of_cons, elem_of_singleton.
        tauto. }
      rewrite E, Hset, <- app_assoc. reflexivity.
Qed.

(** X10. When every row of a page is well formed, the row loop returns
    without raising; the records it has added are, in page order, those
    whose identifier was not in the set and is not the identifier of an
    earlier row; the set ends with the identifiers of all rows added;
    and no file is changed. *)
Theorem X10_row_loop_well_formed rows ds all_ipo_data self seen w :
  processed_ipos self = Some seen ->
  Forall2 (fun r d => _extract_ipo_data self r = Ok (Some (record_id d, d))) rows ds ->
  fst (row_loop rows (all_ipo_data, self) w)
  = Ok (all_ipo_data ++ fresh_records seen ds,
        set_processed self (seen ∪ list_to_set (map record_id ds)))
  /\ fs (snd (row_loop rows (all_ipo_data, self) w)) = fs w.
Proof.
  intros Hs Hrows.
  destruct (row_loop_well_formed self rows ds Hrows all_ipo_data seen w)
    as (w' & E & Hfs & _).
  rewrite (set_processed_same _ _ Hs) in E. rewrite E. auto.
Qed.

(** Bolt is in the set; the page lists Acme, Bolt and Acme again: Acme
    is added once. *)
Lemma X10_row_loop_witness :
  fst (row_loop [row_acme; row_bolt; row_acme]
         ([], constructed default_base_url {[ lit "Bolt_2 Feb 2024" ]})
         (static_site (page_of [])))
  = Ok ([] ++ fresh_records {[ lit "Bolt_2 Feb 2024" ]} [data_acme; data_bolt; data_acme],
        set_processed (constructed default_base_url {[ lit "Bolt_2 Feb 2024" ]})
          ({[ lit "Bolt_2 Feb 2024" ]}
             ∪ list_to_set (map record_id [data_acme; data_bolt; data_acme]))).
Proof.
  apply (X10_row_loop_well_formed [row_acme; row_bolt; row_acme]
           [data_acme; data_bolt; data_acme] []
           (constructed default_base_url {[ lit "Bolt_2 Feb 2024" ]})
           {[ lit "Bolt_2 Feb 2024" ]}).
  - reflexivity.
  - repeat constructor.
Defined.

Example fresh_records_demo :
  fresh_records {[ lit "Bolt_2 Feb 2024" ]} [data_acme; data_bolt; data_acme]
  = [data_acme].
Proof. vm_compute. reflexivity. Qed.

(** ** An Output Table that cannot be read *)

(** X11. When there are new records but the file at the path of the
    Output Table is not a spreadsheet, [save_results] raises before it
    writes anything: no file changes, and nothing is added to the
    trace. *)
Theorem X11_unreadable_table_aborts d rest base seen w :
  output_readable w = false ->
  exists e, save_results (d :: rest, constructed base seen) w = (Raise e, w).
Proof.
  intros Hr. exists ValueError. apply save_results_unreadable, Hr.
Qed.

Lemma X11_unreadable_table_witness :
  exists e,
    save_results ([data_acme], constructed default_base_url {[ lit "Acme_1 Jan 2024" ]})
      site_with_garbage
    = (Raise e, site_with_garbage).
Proof.
  apply X11_unreadable_table_aborts. reflexivity.
Defined.

(** ** A run on a single well-formed page *)

Lemma bind_Ok_eq {A B} (m : M A) (k : A -> M B) w a w1 :
  m w = (Ok a, w1) -> bind m k w = k a w1.
Proof. unfold bind. intros ->. reflexivity. Qed.

Lemma make_request_response base seen url w page :
  remote w (clock w) url = Response page ->
  _make_request (constructed base seen) url w
  = (Ok (Some page),
     {| remote := remote w; clock := S (clock w); fs := fs w;
        trace := trace w ++ [Get url] |}).
Proof. intros Hr. rewrite make_request_cases. cbn [headers constructed]. rewrite Hr. reflexivity. Qed.

Lemma collect_single_page int base seen rows ds w :
  (forall n url, remote w n url = Response (page_of rows)) ->
  Forall2 (fun r d => _extract_ipo_data (constructed base seen) r
                      = Ok (Some (record_id d, d))) rows ds ->
  exists w',
    collect int (constructed base seen) w
    = (Ok (Some (fresh_records seen ds,
                 constructed base (seen ∪ list_to_set (map record_id ds)))), w')
    /\ fs w' = fs w
    /\ exists evs,
         trace w' = trace w ++ evs
         /\ gets evs = [ base ++ lit "/ipo/recent/";
                         page_url (base ++ lit "/ipo/recent/") 1 ]
         /\ writes evs = [].
Proof.
  intros Hremote Hrows.
  set (url := base ++ lit "/ipo/recent/").
  set (w1 := {| remote := remote w; clock := S (clock w); fs := fs w;
                trace := trace w ++ [Get url] |}).
  set (w2 := emit (Log (Found_pages 1)) w1).
  destruct (row_loop_well_formed (constructed base seen) rows ds Hrows [] seen
              {| remote := remote w2; clock := S (clock w2); fs := fs w2;
                 trace := trace w2 ++ [Get (page_url url 1)] |})
    as (w3 & E & Hfs & evs & Htr & Hg & Hw).
  exists (emit (Sleep 2) (emit (Log (Processed_page 1 1)) w3)).
  split; [|split].
  - unfold collect.
    rewrite (bind_Ok_eq _ _ w base w) by reflexivity. fold url.
    erewrite bind_Ok_eq by (apply make_request_response, Hremote). fold w1.
    cbv beta iota.
    erewrite bind_Ok_eq by reflexivity.
    erewrite bind_Ok_eq by reflexivity. fold w2.
    change (page_range 1) with [1]. cbn [page_loop].
    erewrite bind_Ok_eq; [reflexivity|].
    erewrite bind_Ok_eq; [reflexivity|].
    unfold page_step. cbn [snd].
    erewrite bind_Ok_eq by (apply make_request_response, Hremote).
    cbv beta iota. cbn [page_of find_data_table find_tbody].
    erewrite bind_Ok_eq by reflexivity.
    erewrite bind_Ok_eq by (exact E).
    reflexivity.
  - cbn [fs emit]. rewrite Hfs. reflexivity.
  - exists ([Get url; Log (Found_pages 1); Get (page_url url 1)] ++ evs
            ++ [Log (Processed_page 1 1); Sleep 2]).
    split; [|split].
    + cbn [trace emit]. rewrite Htr. cbn [trace emit w2 w1].
      rewrite <- !app_assoc. reflexivity.
    + unfold gets in *. rewrite !omap_app, Hg. reflexivity.
    + rewrite !writes_app, Hw. reflexivity.
Qed.

Lemma output_readable_fs w w' : fs w' = fs w -> output_readable w' = output_readable w.
Proof. unfold output_readable. intros ->. reflexivity. Qed.

Lemma fresh_records_empty_set d rest :
  fresh_records ∅ (d :: rest) = d :: fresh_records ({[ record_id d ]} ∪ ∅) rest.
Proof.
  cbn [fresh_records]. rewrite bool_decide_eq_false_2; [reflexivity|].
  apply not_elem_of_empty.
Qed.

(** X12. On a site that answers every request with one page without
    pagination control, all of whose rows are well formed, and with an
    Output Table that can be read, a run of [main] returns normally.  It
    requests the listing and then its page 1 and nothing else; it
    appends to the Output Table the records of the rows, one per
    identifier, in page order, whatever the Deduplication Set on disk
    holds; and, when the page has a row, it stores the identifiers of
    the page as the Deduplication Set. *)
Theorem X12_run_on_single_page int rows ds w :
  (forall n url, remote w n url = Response (page_of rows)) ->
  Forall2 (fun r d => _extract_ipo_data (constructed default_base_url ∅) r
                      = Ok (Some (record_id d, d))) rows ds ->
  output_readable w = true ->
  fst (main int w) = Ok tt
  /\ output_table (snd (main int w)) = output_table w ++ fresh_records ∅ ds
  /\ (ds <> [] ->
      fs (snd (main int w)) !! "processed_ipos.json"%string
      = Some (Json (elements (list_to_set (map record_id ds) : gset pystr))))
  /\ (ds = [] -> fs (snd (main int w)) = fs w)
  /\ exists evs,
       trace (snd (main int w)) = trace w ++ evs
       /\ gets evs = [ lit "https://www.screener.in/ipo/recent/";
                       lit "https://www.screener.in/ipo/recent/?page=1" ].
Proof.
  intros Hremote Hrows Hread.
  set (w0 := emit (Log (Error_loading AttributeError)) w).
  destruct (collect_single_page int default_base_url ∅ rows ds w0 Hremote Hrows)
    as (w1 & Ecol & Hfs & evs & Htr & Hg & Hw).
  assert (Hr1 : output_readable w1 = true).
  { rewrite (output_readable_fs w0 w1 Hfs). exact Hread. }
  assert (Ht1 : output_table w1 = output_table w).
  { rewrite (output_table_fs w0 w1 Hfs). reflexivity. }
  remember (main int w) as run eqn:Erun.
  unfold main in Erun. rewrite (bind_Ok_eq _ _ w _ w0) in Erun by apply init_spec.
  unfold scrape_ipo_data in Erun. rewrite (bind_Ok_eq _ _ _ _ _ Ecol) in Erun.
  cbv beta iota in Erun. rewrite union_empty_l_L in Erun.
  destruct ds as [|d rest].
  - cbn [fresh_records save_results] in Erun. unfold log in Erun. subst run.
    cbn [fst snd fs emit trace].
    split; [reflexivity|]. split; [rewrite app_nil_r; exact Ht1|].
    split; [congruence|]. split; [intros _; exact Hfs|].
    exists (Log (Error_loading AttributeError) :: evs ++ [Log No_new_IPOs]).
    split.
    + rewrite Htr. cbn [w0 emit trace]. rewrite <- !app_assoc. reflexivity.
    + unfold gets in *. cbn [omap list_omap]. rewrite omap_app, Hg. reflexivity.
  - rewrite fresh_records_empty_set in *.
    rewrite (save_results_new _ _ _ _ _ Hr1) in Erun. subst run.
    cbn [fst snd fs trace].
    split; [reflexivity|]. split; [|split; [|split; [discriminate|]]].
    + unfold output_table at 1. cbn [fs].
      rewrite lookup_insert_ne by discriminate.
      rewrite lookup_insert_eq, Ht1. reflexivity.
    + intros _. apply lookup_insert_eq.
    + eexists. split.
      * rewrite Htr. cbn [w0 emit trace]. rewrite <- !app_assoc. reflexivity.
      * unfold gets in *. cbn [omap list_omap]. rewrite !omap_app, Hg. reflexivity.
Qed.

Lemma X12_run_on_single_page_witness :
  output_table (snd (main int_ascii site_with_table))
  = output_table site_with_table ++ fresh_records ∅ [data_acme].
Proof.
  apply (X12_run_on_single_page int_ascii [row_acme] [data_acme] site_with_table).
  - reflexivity.
  - repeat constructor.
  - reflexivity.
Defined.

(** ** The requests of a run *)

Lemma gets_app evs1 evs2 : gets (evs1 ++ evs2) = gets evs1 ++ gets evs2.
Proof. unfold gets. apply omap_app. Qed.

Lemma gets_not_get evs : Forall not_get evs -> gets evs = [].
Proof.
  induction 1 as [|e evs He _ IH]; [reflexivity|].
  change (e :: evs) with ([e] ++ evs). rewrite gets_app, He, IH. reflexivity.
Qed.

Lemma no_get_row_step st r : safe not_get (fun _ => True) (row_step st r).
Proof.
  destruct st as [all_ipo_data self]. unfold row_step.
  apply safe_bind; [apply safe_lift; auto|]. intros extracted.
  repeat safe_step.
Qed.

Lemma no_get_row_loop rows : forall st, safe not_get (fun _ => True) (row_loop rows st).
Proof.
  induction rows as [|r rows IH]; intros st; cbn [row_loop]; [apply safe_ret|].
  apply safe_bind; [apply no_get_row_step|exact IH].
Qed.

Lemma no_get_save_results st : safe not_get (fun _ => True) (save_results st).
Proof.
  destruct st as [all_ipo_data self]. unfold save_results, _save_processed_ipos.
  repeat safe_step.
Qed.

(** One iteration of the loop over the pages, by the outcome of its
    request. *)
Lemma page_step_cases url total st page w :
  page_step url total st page w
  = match headers (snd st) with
    | None => (Raise AttributeError, w)
    | Some _ =>
        match remote w (clock w) (page_url url page) with
        | Response soup =>
            match find_data_table soup with
            | None => ret st
            | Some table =>
                bind (match find_tbody table with
                      | Some rows => ret rows
                      | None => raise AttributeError
                      end)
                  (fun rows =>
                     bind (row_loop rows st)
                       (fun st' =>
                          bind (log (Processed_page page total))
                            (fun _ => bind (time_sleep 2) (fun _ => ret st'))))
            end {| remote := remote w; clock := S (clock w); fs := fs w;
                   trace := trace w ++ [Get (page_url url page)] |}
        | RequestFailed =>
            (Raise AttributeError,
             {| remote := remote w; clock := S (clock w); fs := fs w;
                trace := trace w ++ [Get (page_url url page);
                                     Log (Error_fetching (page_url url page))] |})
        end
    end.
Proof.
  unfold page_step. fold (page_url url page). unfold bind at 1.
  rewrite make_request_cases.
  destruct (headers (snd st)); [destruct (remote w (clock w) (page_url url page))|];
    reflexivity.
Qed.

Lemma offline_ret {A} (a : A) : offline (ret a).
Proof. intros w. auto. Qed.

Lemma offline_raise {A} e : offline (@raise A e).
Proof. intros w. auto. Qed.

Lemma offline_lift {A} (r : result A) : offline (lift r).
Proof. intros w. auto. Qed.

Lemma offline_getattr {A} (field : IPOScraper -> option A) self :
  offline (getattr field self).
Proof. unfold getattr. destruct (field self); [apply offline_ret|apply offline_raise]. Qed.

Lemma offline_log msg : offline (log msg).
Proof. intros w. auto. Qed.

Lemma offline_time_sleep d : offline (time_sleep d).
Proof. intros w. auto. Qed.

Lemma offline_bind {A B} (m : M A) (k : A -> M B) :
  offline m -> (forall a, offline (k a)) -> offline (bind m k).
Proof.
  intros Hm Hk w. unfold bind. destruct (Hm w) as [Hc Hr].
  destruct (m w) as [[a|e] w1]; cbn [snd] in *; [|auto].
  destruct (Hk a w1) as [Hc' Hr']. split; congruence.
Qed.

Ltac offline_step :=
  match goal with
  | |- offline (bind _ _) => apply offline_bind; [|intros ?]
  | |- offline (ret _) => apply offline_ret
  | |- offline (raise _) => apply offline_raise
  | |- offline (lift _) => apply offline_lift
  | |- offline (getattr _ _) => apply offline_getattr
  | |- offline (log _) => apply offline_log
  | |- offline (time_sleep _) => apply offline_time_sleep
  | |- offline (if ?b then _ else _) => destruct b
  | |- offline (match ?x with _ => _ end) => destruct x
  end.

Lemma offline_row_step st r : offline (row_step st r).
Proof. destruct st as [all_ipo_data self]. unfold row_step. repeat offline_step. Qed.

Lemma offline_row_loop rows : forall st, offline (row_loop rows st).
Proof.
  induction rows as [|r rows IH]; intros st; cbn [row_loop]; [apply offline_ret|].
  apply offline_bind; [apply offline_row_step|exact IH].
Qed.

Lemma offline_page_rows total page st soup : offline (page_rows total page st soup).
Proof. unfold page_rows. repeat offline_step. apply offline_row_loop. Qed.

Lemma no_get_page_rows total page st soup :
  safe not_get (fun _ => True) (page_rows total page st soup).
Proof. unfold page_rows. repeat safe_step. apply no_get_row_loop. Qed.

Lemma page_step_received url total st page w hd soup :
  headers (snd st) = Some hd ->
  remote w (clock w) (page_url url page) = Response soup ->
  page_step url total st page w
  = page_rows total page st soup
      {| remote := remote w; clock := S (clock w); fs := fs w;
         trace := trace w ++ [Get (page_url url page)] |}.
Proof. intros Hh Hr. rewrite page_step_cases, Hh, Hr. reflexivity. Qed.

Lemma page_step_failed url total st page w hd :
  headers (snd st) = Some hd ->
  remote w (clock w) (page_url url page) = RequestFailed ->
  page_step url total st page w
  = (Raise AttributeError,
     {| remote := remote w; clock := S (clock w); fs := fs w;
        trace := trace w ++ [Get (page_url url page);
                             Log (Error_fetching (page_url url page))] |}).
Proof. intros Hh Hr. rewrite page_step_cases, Hh, Hr. reflexivity. Qed.

(** The requests of the loop over the pages: the pages in order, each
    request but the last one answered, and all of them made when the
    loop returns. *)
Lemma page_loop_requests self0 seen0 hd url total pages :
  headers self0 = Some hd ->
  forall st w,
    accumulated self0 seen0 st ->
    exists evs,
      trace (snd (page_loop url total pages st w)) = trace w ++ evs
      /\ gets evs `prefix_of` map (page_url url) pages
      /\ (forall i u, gets evs !! i = Some u -> (S i < length (gets evs))%nat ->
                      exists soup, remote w (clock w + i)%nat u = Response soup)
      /\ (forall st', fst (page_loop url total pages st w) = Ok st' ->
                      gets evs = map (page_url url) pages).
Proof.
  intros Hhd. induction pages as [|page pages IH]; intros st w Hst.
  - exists []. cbn [page_loop map]. rewrite app_nil_r.
    split; [reflexivity|]. split; [apply prefix_nil|]. split; [|reflexivity].
    intros i u Hi. destruct i; discriminate.
  - assert (Hh : headers (snd st) = Some hd).
    { destruct Hst as (_ & _ & ->). exact Hhd. }
    cbn [page_loop map]. unfold bind.
    destruct (remote w (clock w) (page_url url page)) as [soup|] eqn:Hr.
    + pose proof (page_step_accumulated self0 seen0 url total st page Hst w) as Hpost.
      rewrite (page_step_received _ _ _ _ _ _ _ Hh Hr) in Hpost |- *.
      set (w1 := {| remote := remote w; clock := S (clock w); fs := fs w;
                    trace := trace w ++ [Get (page_url url page)] |}) in *.
      destruct (offline_page_rows total page st soup w1) as [Hc Hrm].
      destruct (proj1 (no_get_page_rows total page st soup w1)) as (evs1 & Htr1 & Hev1).
      apply gets_not_get in Hev1.
      destruct (page_rows total page st soup w1) as [[st'|e] w2]; cbn [fst snd] in *.
      * destruct (IH st' w2 (Hpost _ _ eq_refl)) as (evs2 & Htr2 & Hpre & Hans & Hall).
        exists ([Get (page_url url page)] ++ evs1 ++ evs2).
        assert (Hg : gets ([Get (page_url url page)] ++ evs1 ++ evs2)
                     = page_url url page :: gets evs2).
        { rewrite !gets_app, Hev1. reflexivity. }
        rewrite Hg. split; [|split; [|split]].
        -- rewrite Htr2, Htr1. cbn [w1 trace]. rewrite <- !app_assoc. reflexivity.
        -- apply (prefix_app [_]), Hpre.
        -- intros [|i] u Hi Hlen; cbn in Hi, Hlen.
           ++ injection Hi as <-. rewrite Nat.add_0_r. eauto.
           ++ destruct (Hans i u Hi) as [soup' Hs]; [lia|].
              exists soup'. rewrite Hrm, Hc in Hs. cbn [w1 clock remote] in Hs.
              rewrite Nat.add_succ_r. exact Hs.
        -- intros st'' Hok. rewrite (Hall _ Hok). reflexivity.
      * exists ([Get (page_url url page)] ++ evs1).
        assert (Hg : gets ([Get (page_url url page)] ++ evs1) = [page_url url page]).
        { rewrite gets_app, Hev1. reflexivity. }
        rewrite Hg. split; [|split; [|split]].
        -- rewrite Htr1. cbn [w1 trace]. rewrite <- !app_assoc. reflexivity.
        -- apply (prefix_app_r [_] [_] _). reflexivity.
        -- intros [|i] u Hi Hlen; cbn in Hi, Hlen; [lia|discriminate].
        -- discriminate.
    + rewrite (page_step_failed _ _ _ _ _ _ Hh Hr). cbn [fst snd trace].
      exists [Get (page_url url page); Log (Error_fetching (page_url url page))].
      split; [reflexivity|]. split; [apply (prefix_app_r [_] [_] _); reflexivity|].
      split; [|discriminate].
      intros [|i] u Hi Hlen; cbn in Hi, Hlen; [lia|discriminate].
Qed.

Lemma collect_requests int base seen w :
  let url := base ++ lit "/ipo/recent/" in
  exists evs n,
    trace (snd (collect int (constructed base seen) w)) = trace w ++ evs
    /\ gets evs `prefix_of` url :: map (page_url url) (page_range n)
    /\ (forall soup, remote w (clock w) url = Response soup ->
                     _extract_pagination_info int soup = Ok n)
    /\ (forall i u, gets evs !! i = Some u -> (S i < length (gets evs))%nat ->
                    exists soup, remote w (clock w + i)%nat u = Response soup)
    /\ (forall r, fst (collect int (constructed base seen) w) = Ok r ->
                  gets evs = url :: map (page_url url) (page_range n)).
Proof.
  intros url.
  destruct (collect int (constructed base seen) w) as [res w'] eqn:E.
  unfold collect in E. rewrite (bind_Ok_eq _ _ w base w) in E by reflexivity.
  fold url in E. unfold bind at 1 in E. rewrite make_request_cases in E.
  cbn [headers constructed] in E. cbn [fst snd].
  destruct (remote w (clock w) url) as [soup|] eqn:Hr.
  - unfold bind at 1, lift in E.
    destruct (_extract_pagination_info int soup) as [n|e] eqn:Hn;
      [|destruct (pagination_returns _ _ _ Hn)].
    unfold bind at 1, log in E.
    set (w2 := emit (Log (Found_pages n))
                 {| remote := remote w; clock := S (clock w); fs := fs w;
                    trace := trace w ++ [Get url] |}) in E.
    destruct (page_loop_requests (constructed base seen) seen
                [(lit "User-Agent", user_agent)] url n (page_range n) eq_refl
                ([], constructed base seen) w2
                (accumulated_start (constructed base seen) seen eq_refl))
      as (evs & Htr & Hpre & Hans & Hall).
    unfold bind in E.
    destruct (page_loop url n (page_range n) ([], constructed base seen) w2)
      as [[st|e] w3]; injection E as <- <-; cbn [fst snd] in *.
    + exists ([Get url; Log (Found_pages n)] ++ evs), n.
      assert (Hg : gets ([Get url; Log (Found_pages n)] ++ evs) = url :: gets evs).
      { rewrite gets_app. reflexivity. }
      rewrite Hg. split; [|split; [|split; [|split]]].
      * rewrite Htr. cbn [w2 emit trace]. rewrite <- !app_assoc. reflexivity.
      * apply (prefix_app [_]), Hpre.
      * intros soup' [= <-]. exact Hn.
      * intros [|i] u Hi Hlen; cbn in Hi, Hlen.
        -- injection Hi as <-. rewrite Nat.add_0_r. eauto.
        -- destruct (Hans i u Hi) as [soup' Hs]; [lia|].
           exists soup'. cbn [w2 emit clock remote] in Hs.
           rewrite Nat.add_succ_r. exact Hs.
      * intros r _. rewrite (Hall _ eq_refl). reflexivity.
    + exists ([Get url; Log (Found_pages n)] ++ evs), n.
      assert (Hg : gets ([Get url; Log (Found_pages n)] ++ evs) = url :: gets evs).
      { rewrite gets_app. reflexivity. }
      rewrite Hg. split; [|split; [|split; [|split]]].
      * rewrite Htr. cbn [w2 emit trace]. rewrite <- !app_assoc. reflexivity.
      * apply (prefix_app [_]), Hpre.
      * intros soup' [= <-]. exact Hn.
      * intros [|i] u Hi Hlen; cbn in Hi, Hlen.
        -- injection Hi as <-. rewrite Nat.add_0_r. eauto.
        -- destruct (Hans i u Hi) as [soup' Hs]; [lia|].
           exists soup'. cbn [w2 emit clock remote] in Hs.
           rewrite Nat.add_succ_r. exact Hs.
      * discriminate.
  - injection E as <- <-. cbn [trace].
    exists [Get url; Log (Error_fetching url)], 1. split; [reflexivity|].
    split; [apply (prefix_app_r [_] [_] _); reflexivity|].
    split; [discriminate|]. split; [|discriminate].
    intros [|i] u Hi Hlen; cbn in Hi, Hlen; [lia|discriminate].
Qed.

(** X13. The requests of a run of [main] are, in this order, the
    listing and then its pages 1, 2, ... up to the page count found on
    the listing, each at most once.  Every request but the last one of
    the run was answered, so no request follows one that failed; a run
    thus makes at most one request more than there are pages, and a run
    that returns normally has made them all. *)
Theorem X13_requests_of_a_run int w :
  let url := lit "https://www.screener.in/ipo/recent/" in
  exists evs n,
    trace (snd (main int w)) = trace w ++ evs
    /\ gets evs `prefix_of` url :: map (page_url url) (page_range n)
    /\ (forall soup, remote w (clock w) url = Response soup ->
                     _extract_pagination_info int soup = Ok n)
    /\ (length (gets evs) <= 1 + Z.to_nat n)%nat
    /\ (forall i u, gets evs !! i = Some u -> (S i < length (gets evs))%nat ->
                    exists soup, remote w (clock w + i)%nat u = Response soup)
    /\ (fst (main int w) = Ok tt ->
        gets evs = url :: map (page_url url) (page_range n)).
Proof.
  intros url.
  set (w0 := emit (Log (Error_loading AttributeError)) w).
  destruct (collect_requests int default_base_url ∅ w0)
    as (evs & n & Htr & Hpre & Hn & Hans & Hall).
  assert (Hrun : exists evs', trace (snd (main int w)) = trace w0 ++ evs ++ evs'
                              /\ gets evs' = []
                              /\ (fst (main int w) = Ok tt ->
                                  exists r, fst (collect int (constructed default_base_url ∅) w0)
                                            = Ok r)).
  { unfold main. rewrite (bind_Ok_eq _ _ w _ w0) by apply init_spec.
    unfold scrape_ipo_data, bind.
    destruct (collect int (constructed default_base_url ∅) w0) as [[[st|]|e] w1];
      cbn [fst snd] in Htr |- *.
    - destruct (proj1 (no_get_save_results st w1)) as (evs' & Htr' & Hev).
      exists evs'. rewrite Htr', Htr, app_assoc.
      split; [reflexivity|]. split; [apply gets_not_get, Hev|eauto].
    - exists []. rewrite app_nil_r. eauto.
    - exists []. rewrite app_nil_r. split; [exact Htr|]. split; [reflexivity|].
      discriminate. }
  destruct Hrun as (evs' & Hrun & Hg' & Hok).
  exists (Log (Error_loading AttributeError) :: evs ++ evs'), n.
  assert (Hg : gets (Log (Error_loading AttributeError) :: evs ++ evs') = gets evs).
  { change (gets (Log (Error_loading AttributeError) :: evs ++ evs'))
      with (gets (evs ++ evs')).
    rewrite gets_app, Hg', app_nil_r. reflexivity. }
  rewrite Hg. split; [|split; [exact Hpre|split; [exact Hn|split; [|split]]]].
  - rewrite Hrun. cbn [w0 emit trace]. rewrite <- app_assoc. reflexivity.
  - apply prefix_length in Hpre. cbn [length] in Hpre.
    unfold page_range in Hpre. rewrite !length_map, length_seq in Hpre. lia.
  - exact Hans.
  - intros Hmain. destruct (Hok Hmain) as [r Hr]. exact (Hall r Hr).
Qed.

(** ** Pages without rows to read *)

(** X14. When the request for a page succeeds but the page has no data
    table, the page is passed over: the state of the loop is unchanged,
    and there is neither a log entry nor a sleep.  When the data table
    has no [tbody], the iteration raises [AttributeError]. *)
Theorem X14_page_without_rows url total all_ipo_data base seen page w soup :
  remote w (clock w) (page_url url page) = Response soup ->
  (find_data_table soup = None ->
   page_step url total (all_ipo_data, constructed base seen) page w
   = (Ok (all_ipo_data, constructed base seen),
      {| remote := remote w; clock := S (clock w); fs := fs w;
         trace := trace w ++ [Get (page_url url page)] |}))
  /\ (forall t, find_data_table soup = Some t -> find_tbody t = None ->
        page_step url total (all_ipo_data, constructed base seen) page w
        = (Raise AttributeError,
           {| remote := remote w; clock := S (clock w); fs := fs w;
              trace := trace w ++ [Get (page_url url page)] |})).
Proof.
  intros Hr. rewrite page_step_cases. cbn [snd headers constructed]. rewrite Hr.
  split.
  - intros ->. reflexivity.
  - intros t -> Ht. unfold bind at 1. rewrite Ht. reflexivity.
Qed.

Lemma X14_page_without_rows_witness :
  page_step (lit "https://www.screener.in/ipo/recent/") 1
    ([], constructed default_base_url ∅) 1 (static_site soup_no_tbody)
  = (Raise AttributeError,
     {| remote := remote (static_site soup_no_tbody); clock := 1; fs := ∅;
        trace := [Get (lit "https://www.screener.in/ipo/recent/?page=1")] |}).
Proof.
  apply (proj2 (X14_page_without_rows (lit "https://www.screener.in/ipo/recent/") 1 []
                  default_base_url ∅ 1 (static_site soup_no_tbody) soup_no_tbody
                  eq_refl)
           {| find_tbody := None |}); reflexivity.
Defined.

(** ** A page whose rows are all known *)

Lemma fresh_records_all_seen seen ds :
  (forall d, d ∈ ds -> record_id d ∈ seen) -> fresh_records seen ds = [].
Proof.
  induction ds as [|d ds IH]; intros Hall; [reflexivity|].
  cbn [fresh_records]. rewrite bool_decide_eq_true_2 by (apply Hall, list_elem_of_here).
  apply IH. intros d' Hd'. apply Hall, list_elem_of_further, Hd'.
Qed.

(** X15. When [scrape_ipo_data] runs on an instance whose set already
    holds the identifier of every row of the (single, well-formed) page,
    it returns normally, reports that there is nothing new, writes no
    file and leaves every file as it was. *)
Theorem X15_known_rows_change_nothing int base seen rows ds w :
  (forall n url, remote w n url = Response (page_of rows)) ->
  Forall2 (fun r d => _extract_ipo_data (constructed base seen) r
                      = Ok (Some (record_id d, d))) rows ds ->
  (forall d, d ∈ ds -> record_id d ∈ seen) ->
  fst (scrape_ipo_data int (constructed base seen) w) = Ok tt
  /\ fs (snd (scrape_ipo_data int (constructed base seen) w)) = fs w
  /\ exists evs,
       trace (snd (scrape_ipo_data int (constructed base seen) w))
       = trace w ++ evs ++ [Log No_new_IPOs]
       /\ writes evs = [].
Proof.
  intros Hremote Hrows Hseen.
  destruct (collect_single_page int base seen rows ds w Hremote Hrows)
    as (w1 & Ecol & Hfs & evs & Htr & _ & Hw).
  rewrite (fresh_records_all_seen _ _ Hseen) in Ecol.
  remember (scrape_ipo_data int (constructed base seen) w) as run eqn:Erun.
  unfold scrape_ipo_data in Erun. rewrite (bind_Ok_eq _ _ _ _ _ Ecol) in Erun.
  cbv beta iota in Erun. cbn [save_results] in Erun. unfold log in Erun. subst run.
  cbn [fst snd fs emit trace]. split; [reflexivity|]. split; [exact Hfs|].
  exists evs. rewrite Htr, <- app_assoc. auto.
Qed.

Lemma X15_known_rows_witness :
  fs (snd (scrape_ipo_data int_ascii
             (constructed default_base_url {[ lit "Acme_1 Jan 2024" ]}) site_with_table))
  = fs site_with_table.
Proof.
  apply (X15_known_rows_change_nothing int_ascii default_base_url
           {[ lit "Acme_1 Jan 2024" ]} [row_acme] [data_acme] site_with_table).
  - reflexivity.
  - repeat constructor.
  - intros d ->%list_elem_of_singleton. apply elem_of_singleton. reflexivity.
Defined.

(** ** Identifiers and the underscore *)

Lemma split_at_first (u : N) (l1 l2 r1 r2 : pystr) :
  u ∉ l1 -> u ∉ l2 -> l1 ++ u :: r1 = l2 ++ u :: r2 -> l1 = l2 /\ r1 = r2.
Proof.
  revert l2. induction l1 as [|a l1 IH]; intros [|b l2] H1 H2 E; cbn in E.
  - injection E as ->. auto.
  - injection E as <- _. exfalso. apply H2, list_elem_of_here.
  - injection E as -> _. exfalso. apply H1, list_elem_of_here.
  - injection E as -> E.
    destruct (IH l2) as [-> ->]; [| |exact E|auto].
    + intros H. apply H1, list_elem_of_further, H.
    + intros H. apply H2, list_elem_of_further, H.
Qed.

(** X16. Two records whose company names contain no underscore have
    the same identifier only if they have the same company name and the
    same listing date.  Without that condition the identifier does not
    determine them: the name [A_B] with the date [C] and the name [A]
    with the date [B_C] share an identifier. *)
Theorem X16_identifier_determines_name_and_date :
  (forall d1 d2,
      95%N ∉ Company d1 -> 95%N ∉ Company d2 ->
      record_id d1 = record_id d2 ->
      Company d1 = Company d2 /\ Listing_Date d1 = Listing_Date d2)
  /\ (forall link mcap price current change,
        record_id {| Company := lit "A_B"; Company_Link := link;
                     Listing_Date := lit "C"; IPO_MCap := mcap; IPO_Price := price;
                     Current_Price := current; Percent_Change := change |}
        = record_id {| Company := lit "A"; Company_Link := link;
                       Listing_Date := lit "B_C"; IPO_MCap := mcap; IPO_Price := price;
                       Current_Price := current; Percent_Change := change |}).
Proof.
  split; [|reflexivity].
  intros d1 d2 H1 H2 E. unfold record_id in E.
  exact (split_at_first 95%N _ _ _ _ H1 H2 E).
Qed.

Lemma X16_identifier_witness :
  Company data_acme = Company data_acme_later
  /\ Listing_Date data_acme = Listing_Date data_acme_later.
Proof.
  apply (proj1 X16_identifier_determines_name_and_date data_acme data_acme_later).
  - vm_compute. intros H. repeat (apply elem_of_cons in H as [H|H]; [discriminate|]).
    inversion H.
  - vm_compute. intros H. repeat (apply elem_of_cons in H as [H|H]; [discriminate|]).
    inversion H.
  - reflexivity.
Defined.

